(** * bronzebeard: a shallow embedding of [bronzebeard/asm_v3.py]

    The assembler is a Python module: a register resolver, six RV32I
    instruction encoders, a lexer and program builder, and four resolution
    passes followed by the final assembly pass.  Python integers are
    unbounded and are modelled by [Z]; [&], [|], [<<], [>>], [//] and [%]
    are [Z.land], [Z.lor], [Z.shiftl], [Z.shiftr], [Z.div] and [Z.modulo]
    (all of them floor/two's-complement on negative numbers, as in Python).
    A Python exception is a value of [exn] and a function that may raise
    returns [res].  Dictionaries are stdpp [gmap]s.

    The module uses [namedtuple] without importing it; it is read here as
    [collections.namedtuple]: immutable records whose fields are exactly
    the declared ones, whose [len] is the number of fields and which
    iterate over their fields. *)

From Stdlib Require Import ZArith Lia List String Ascii Bool.
From Stdlib.Strings Require Import Byte.
From stdpp Require Import base option gmap strings list.

Local Open Scope string_scope.
Local Open Scope Z_scope.

(** ** Exceptions *)

(** The [ValueError]s of the module differ only by their message. *)
Inductive value_error : Type :=
  | RegisterNotNumber     (* 'Register is not a number or valid name' *)
  | RegisterOutOfRange    (* 'Register must be between 0 and 31' *)
  | Imm12Range            (* '12-bit immediate must be between -0x800 and 0x7ff' *)
  | Imm13Range            (* '12-bit multiple of 2 immediate must be between -0x1000 and 0x0fff' *)
  | Imm13Parity           (* '12-bit multiple of 2 immediate must be a muliple of 2' *)
  | Imm20Range            (* '20-bit immediate must be between -0x80000 and 0x7ffff' *)
  | Imm21Range            (* '20-bit multiple of 2 immediate must be between -0x100000 and 0x0fffff' *)
  | Imm21Parity           (* '20-bit multiple of 2 immediate must be a muliple of 2' *)
  | NegativeShiftCount    (* raised by [<<] on a negative count *)
  | ByteOutOfRange.       (* raised by [bytes] on an element outside range(256) *)

Inductive exn : Type :=
  | ValueError (m : value_error)
  | TypeError
  | IndexError
  | KeyError (key : string)
  | AttributeError
  | ZeroDivisionError
  | StructError                   (* struct.error *)
  | EvalError                     (* whatever [eval] raises *)
  | SystemExit (msg : string).

Inductive res (A : Type) : Type :=
  | Ok (a : A)
  | Err (e : exn).
Arguments Ok {A} a.
Arguments Err {A} e.

#[global] Instance res_ret : MRet res := fun _ a => Ok a.
#[global] Instance res_bind : MBind res := fun _ _ f m =>
  match m with
  | Ok a => f a
  | Err e => Err e
  end.

Definition is_ok {A} (r : res A) : bool :=
  match r with Ok _ => true | Err _ => false end.

(** ** Bytes *)

Definition byte_of_Z (z : Z) : byte :=
  match Byte.of_N (Z.to_N (z mod 256)) with
  | Some b => b
  | None => x00
  end.

Definition Z_of_byte (b : byte) : Z := Z.of_N (Byte.to_N b).

(** [struct.pack('<I', code)]: four bytes, least significant first;
    [struct.error] when [code] does not fit an unsigned 32-bit word. *)
Definition pack_I (code : Z) : res (list byte) :=
  if (0 <=? code) && (code <? 2 ^ 32) then
    Ok [byte_of_Z code; byte_of_Z (Z.shiftr code 8);
        byte_of_Z (Z.shiftr code 16); byte_of_Z (Z.shiftr code 24)]
  else Err StructError.

(** Reading a byte string back as a little-endian number. *)
Fixpoint le_word (bs : list byte) : Z :=
  match bs with
  | [] => 0
  | b :: bs' => Z_of_byte b + 256 * le_word bs'
  end.

(** [c_uint32(n).value] *)
Definition c_uint32 (n : Z) : Z := n mod 2 ^ 32.

(** ** Registers *)

Definition REGISTERS : gmap string Z :=
  list_to_map
    [("x0", 0); ("zero", 0);
     ("x1", 1); ("ra", 1);
     ("x2", 2); ("sp", 2);
     ("x3", 3); ("gp", 3);
     ("x4", 4); ("tp", 4);
     ("x5", 5); ("t0", 5);
     ("x6", 6); ("t1", 6);
     ("x7", 7); ("t2", 7);
     ("x8", 8); ("s0", 8); ("fp", 8);
     ("x9", 9); ("s1", 9);
     ("x10", 10); ("a0", 10);
     ("x11", 11); ("a1", 11);
     ("x12", 12); ("a2", 12);
     ("x13", 13); ("a3", 13);
     ("x14", 14); ("a4", 14);
     ("x15", 15); ("a5", 15);
     ("x16", 16); ("a6", 16);
     ("x17", 17); ("a7", 17);
     ("x18", 18); ("s2", 18);
     ("x19", 19); ("s3", 19);
     ("x20", 20); ("s4", 20);
     ("x21", 21); ("s5", 21);
     ("x22", 22); ("s6", 22);
     ("x23", 23); ("s7", 23);
     ("x24", 24); ("s8", 24);
     ("x25", 25); ("s9", 25);
     ("x26", 26); ("s10", 26);
     ("x27", 27); ("s11", 27);
     ("x28", 28); ("t3", 28);
     ("x29", 29); ("t4", 29);
     ("x30", 30); ("t5", 30);
     ("x31", 31); ("t6", 31)].

(** A register operand: [rd, rs1, rs2: int, str]. *)
Inductive reg_operand : Type :=
  | RegInt (n : Z)
  | RegStr (s : string).

Section Assembler.

(** The builtin [int] applied to a string: [None] when it raises
    [ValueError]. *)
Variable py_int : string -> option Z.

Definition resolve_register (reg : reg_operand) : res Z :=
  (* check if register corresponds to a valid name *)
  let reg :=
    match reg with
    | RegStr s =>
        match REGISTERS !! s with
        | Some n => RegInt n
        | None => reg
        end
    | RegInt _ => reg     (* an int is never a key of REGISTERS *)
    end in
  (* ensure register is a number *)
  reg ← match reg with
        | RegInt n => Ok n
        | RegStr s =>
            match py_int s with
            | Some n => Ok n
            | None => Err (ValueError RegisterNotNumber)
            end
        end;
  (* ensure register is between 0 and 31 *)
  if (reg <? 0) || (reg >? 31) then Err (ValueError RegisterOutOfRange)
  else Ok reg.

Definition r_type (rd rs1 rs2 : reg_operand) (opcode funct3 funct7 : Z)
  : res (list byte) :=
  rd ← resolve_register rd;
  rs1 ← resolve_register rs1;
  rs2 ← resolve_register rs2;
  let code := 0 in
  let code := Z.lor code opcode in
  let code := Z.lor code (Z.shiftl rd 7) in
  let code := Z.lor code (Z.shiftl funct3 12) in
  let code := Z.lor code (Z.shiftl rs1 15) in
  let code := Z.lor code (Z.shiftl rs2 20) in
  let code := Z.lor code (Z.shiftl funct7 25) in
  pack_I code.

Definition i_type (rd rs1 : reg_operand) (imm opcode funct3 : Z)
  : res (list byte) :=
  rd ← resolve_register rd;
  rs1 ← resolve_register rs1;
  if (imm <? -0x800) || (imm >? 0x7ff) then Err (ValueError Imm12Range)
  else
    let imm := Z.land (c_uint32 imm) 0xfff in
    let code := 0 in
    let code := Z.lor code opcode in
    let code := Z.lor code (Z.shiftl rd 7) in
    let code := Z.lor code (Z.shiftl funct3 12) in
    let code := Z.lor code (Z.shiftl rs1 15) in
    let code := Z.lor code (Z.shiftl imm 20) in
    pack_I code.

Definition s_type (rs1 rs2 : reg_operand) (imm opcode funct3 : Z)
  : res (list byte) :=
  rs1 ← resolve_register rs1;
  rs2 ← resolve_register rs2;
  if (imm <? -0x800) || (imm >? 0x7ff) then Err (ValueError Imm12Range)
  else
    let imm := Z.land (c_uint32 imm) 0xfff in
    let imm_11_5 := Z.land (Z.shiftr imm 5) 0x7f in
    let imm_4_0 := Z.land imm 0x1f in
    let code := 0 in
    let code := Z.lor code opcode in
    let code := Z.lor code (Z.shiftl imm_4_0 7) in
    let code := Z.lor code (Z.shiftl funct3 12) in
    let code := Z.lor code (Z.shiftl rs1 15) in
    let code := Z.lor code (Z.shiftl rs2 20) in
    let code := Z.lor code (Z.shiftl imm_11_5 25) in
    pack_I code.

Definition b_type (rs1 rs2 : reg_operand) (imm opcode funct3 : Z)
  : res (list byte) :=
  rs1 ← resolve_register rs1;
  rs2 ← resolve_register rs2;
  if (imm <? -0x1000) || (imm >? 0x0fff) then Err (ValueError Imm13Range)
  else if imm mod 2 =? 1 then Err (ValueError Imm13Parity)
  else
    let imm := imm / 2 in
    let imm := Z.land (c_uint32 imm) 0xfff in
    let imm_12 := Z.land (Z.shiftr imm 11) 0x1 in
    let imm_11 := Z.land (Z.shiftr imm 10) 0x1 in
    let imm_10_5 := Z.land (Z.shiftr imm 4) 0x3f in
    let imm_4_1 := Z.land imm 0xf in
    let code := 0 in
    let code := Z.lor code opcode in
    let code := Z.lor code (Z.shiftl imm_11 7) in
    let code := Z.lor code (Z.shiftl imm_4_1 8) in
    let code := Z.lor code (Z.shiftl funct3 12) in
    let code := Z.lor code (Z.shiftl rs1 15) in
    let code := Z.lor code (Z.shiftl rs2 20) in
    let code := Z.lor code (Z.shiftl imm_10_5 25) in
    let code := Z.lor code (Z.shiftl imm_12 31) in
    pack_I code.

Definition u_type (rd : reg_operand) (imm opcode : Z) : res (list byte) :=
  rd ← resolve_register rd;
  if (imm <? -0x80000) || (imm >? 0x7ffff) then Err (ValueError Imm20Range)
  else
    let imm := Z.land (c_uint32 imm) 0xfffff in
    let code := 0 in
    let code := Z.lor code opcode in
    let code := Z.lor code (Z.shiftl rd 7) in
    let code := Z.lor code (Z.shiftl imm 12) in
    pack_I code.

Definition j_type (rd : reg_operand) (imm opcode : Z) : res (list byte) :=
  rd ← resolve_register rd;
  if (imm <? -0x100000) || (imm >? 0x0fffff) then Err (ValueError Imm21Range)
  else if imm mod 2 =? 1 then Err (ValueError Imm21Parity)
  else
    let imm := imm / 2 in
    let imm := Z.land (c_uint32 imm) 0xfffff in
    let imm_20 := Z.land (Z.shiftr imm 19) 0x1 in
    let imm_19_12 := Z.land (Z.shiftr imm 11) 0xff in
    let imm_11 := Z.land (Z.shiftr imm 10) 0x1 in
    let imm_10_1 := Z.land imm 0x3ff in
    let code := 0 in
    let code := Z.lor code opcode in
    let code := Z.lor code (Z.shiftl rd 7) in
    let code := Z.lor code (Z.shiftl imm_19_12 12) in
    let code := Z.lor code (Z.shiftl imm_11 20) in
    let code := Z.lor code (Z.shiftl imm_10_1 21) in
    let code := Z.lor code (Z.shiftl imm_20 31) in
    pack_I code.

(** The mnemonics: [partial] applications of the encoders.  The opcodes
    and functs are the source's binary literals, written in hexadecimal. *)
Definition LUI rd imm := u_type rd imm 0x37.                 (* 0b0110111 *)
Definition AUIPC rd imm := u_type rd imm 0x17.               (* 0b0010111 *)
Definition JAL rd imm := j_type rd imm 0x6f.                 (* 0b1101111 *)
Definition JALR rd rs1 imm := i_type rd rs1 imm 0x67 0.      (* 0b1100111, 0b000 *)
Definition BEQ rs1 rs2 imm := b_type rs1 rs2 imm 0x63 0.     (* 0b1100011, 0b000 *)
Definition BNE rs1 rs2 imm := b_type rs1 rs2 imm 0x63 1.     (* 0b001 *)
Definition BLT rs1 rs2 imm := b_type rs1 rs2 imm 0x63 4.     (* 0b100 *)
Definition BGE rs1 rs2 imm := b_type rs1 rs2 imm 0x63 5.     (* 0b101 *)
Definition BLTU rs1 rs2 imm := b_type rs1 rs2 imm 0x63 6.    (* 0b110 *)
Definition BGEU rs1 rs2 imm := b_type rs1 rs2 imm 0x63 7.    (* 0b111 *)
Definition LB rd rs1 imm := i_type rd rs1 imm 0x03 0.        (* 0b0000011 *)
Definition LH rd rs1 imm := i_type rd rs1 imm 0x03 1.
Definition LW rd rs1 imm := i_type rd rs1 imm 0x03 2.
Definition LBU rd rs1 imm := i_type rd rs1 imm 0x03 4.
Definition LHU rd rs1 imm := i_type rd rs1 imm 0x03 5.
Definition SB rs1 rs2 imm := s_type rs1 rs2 imm 0x23 0.      (* 0b0100011 *)
Definition SH rs1 rs2 imm := s_type rs1 rs2 imm 0x23 1.
Definition SW rs1 rs2 imm := s_type rs1 rs2 imm 0x23 2.
Definition ADDI rd rs1 imm := i_type rd rs1 imm 0x13 0.      (* 0b0010011 *)
Definition SLTI rd rs1 imm := i_type rd rs1 imm 0x13 2.
Definition SLTIU rd rs1 imm := i_type rd rs1 imm 0x13 3.
Definition XORI rd rs1 imm := i_type rd rs1 imm 0x13 4.
Definition ORI rd rs1 imm := i_type rd rs1 imm 0x13 6.
Definition ANDI rd rs1 imm := i_type rd rs1 imm 0x13 7.
Definition SLLI rd rs1 rs2 := r_type rd rs1 rs2 0x13 1 0x00.
Definition SRLI rd rs1 rs2 := r_type rd rs1 rs2 0x13 5 0x00.
Definition SRAI rd rs1 rs2 := r_type rd rs1 rs2 0x13 5 0x20. (* 0b0100000 *)
Definition ADD rd rs1 rs2 := r_type rd rs1 rs2 0x33 0 0x00.  (* 0b0110011 *)
Definition SUB rd rs1 rs2 := r_type rd rs1 rs2 0x33 0 0x20.
Definition SLL rd rs1 rs2 := r_type rd rs1 rs2 0x33 1 0x00.
Definition SLT rd rs1 rs2 := r_type rd rs1 rs2 0x33 2 0x00.
Definition SLTU rd rs1 rs2 := r_type rd rs1 rs2 0x33 3 0x00.
Definition XOR rd rs1 rs2 := r_type rd rs1 rs2 0x33 4 0x00.
Definition SRL rd rs1 rs2 := r_type rd rs1 rs2 0x33 5 0x00.
Definition SRA rd rs1 rs2 := r_type rd rs1 rs2 0x33 5 0x20.
Definition OR rd rs1 rs2 := r_type rd rs1 rs2 0x33 6 0x00.
Definition AND rd rs1 rs2 := r_type rd rs1 rs2 0x33 7 0x00.

(** Only membership in [R_TYPE_INSTRUCTIONS] is ever asked for by the
    rest of the module; the dictionary is kept with its values. *)
Definition R_TYPE_INSTRUCTIONS
  : gmap string (reg_operand -> reg_operand -> reg_operand -> res (list byte)) :=
  list_to_map
    [("slli", SLLI); ("srli", SRLI); ("srai", SRAI); ("add", ADD);
     ("sub", SUB); ("sll", SLL); ("slt", SLT); ("sltu", SLTU);
     ("xor", XOR); ("srl", SRL); ("sra", SRA); ("or", OR); ("and", AND)].

(** ** Program items

    [imm: int, Position, Offset, Hi, Lo]; the fields are the ones the
    [namedtuple] declarations give: [Position] has [label] and [value],
    [Hi] and [Lo] have [value]. *)
Inductive immediate : Type :=
  | Int (n : Z)
  | Position (label : string) (value : Z)
  | Offset (label : string)
  | Hi (value : immediate)
  | Lo (value : immediate).

Inductive item : Type :=
  | RTypeInstruction (name : string) (rd rs1 rs2 : reg_operand)
  | ITypeInstruction (name : string) (rd rs1 : reg_operand) (imm : immediate)
  | STypeInstruction (name : string) (rs1 rs2 : reg_operand) (imm : immediate)
  | BTypeInstruction (name : string) (rs1 rs2 : reg_operand) (imm : immediate)
  | UTypeInstruction (name : string) (rd : reg_operand) (imm : immediate)
  | JTypeInstruction (name : string) (rd : reg_operand) (imm : immediate)
  | Label (name : string)
  | Align (alignment : Z)
  | Blob (data : list byte)
  | Pack (fmt : string) (imm : immediate).

(** [len(item)] of a named tuple: the number of its fields. *)
Definition len_item (it : item) : Z :=
  match it with
  | RTypeInstruction _ _ _ _ => 4
  | ITypeInstruction _ _ _ _ => 4
  | STypeInstruction _ _ _ _ => 4
  | BTypeInstruction _ _ _ _ => 4
  | UTypeInstruction _ _ _ => 3
  | JTypeInstruction _ _ _ => 3
  | Label _ => 1
  | Align _ => 1
  | Blob _ => 1
  | Pack _ _ => 2
  end.

Definition is_Label (it : item) : bool :=
  match it with Label _ => true | _ => false end.

(** [item.imm] for the item types listed in [immediates]; [None] for the
    others ([type(item) in immediates] is false). *)
Definition item_imm (it : item) : option immediate :=
  match it with
  | ITypeInstruction _ _ _ imm | STypeInstruction _ _ _ imm
  | BTypeInstruction _ _ _ imm | UTypeInstruction _ _ imm
  | JTypeInstruction _ _ imm | Pack _ imm => Some imm
  | _ => None
  end.

(** A [for] loop whose body may raise. *)
Fixpoint for_each {S A : Type} (body : S -> A -> res S) (st : S) (l : list A)
  : res S :=
  match l with
  | [] => Ok st
  | x :: l' => st' ← body st x; for_each body st' l'
  end.

(** ** Relocations *)

(** [a << n]; a negative count raises [ValueError]. *)
Definition py_shiftl (a n : Z) : res Z :=
  if n <? 0 then Err (ValueError NegativeShiftCount) else Ok (Z.shiftl a n).

Definition sign_extend (value bits : Z) : res Z :=
  sign_bit ← py_shiftl 1 (bits - 1);
  Ok (Z.land value (sign_bit - 1) - Z.land value sign_bit).

Definition relocate_hi (imm : Z) : res Z :=
  let imm := if Z.land imm 0x800 =? 0 then imm else imm + 2 ^ 12 in
  sign_extend (Z.land (Z.shiftr imm 12) 0x000fffff) 20.

Definition relocate_lo (imm : Z) : res Z :=
  sign_extend (Z.land imm 0x00000fff) 12.

(** ** Lexer

    Python strings are sequences of code points; the model is for ASCII
    input, one character per [ascii]. *)

Definition chr (n : nat) : ascii := ascii_of_nat n.

(** [str.isspace] on ASCII: tab, LF, VT, FF, CR, FS, GS, RS, US, space.
    This is also what [\s] matches. *)
Definition is_space (c : ascii) : bool :=
  let n := nat_of_ascii c in
  ((9 <=? n) && (n <=? 13) || (28 <=? n) && (n <=? 31) || (n =? 32))%nat.

(** The line boundaries of [str.splitlines] on ASCII: LF, VT, FF, CR,
    FS, GS, RS (CR LF counts once). *)
Definition is_linebreak (c : ascii) : bool :=
  let n := nat_of_ascii c in
  ((10 <=? n) && (n <=? 13) || (28 <=? n) && (n <=? 30))%nat.

(** The separators of [re.split(r'[\s,()]+', line)]. *)
Definition is_separator (c : ascii) : bool :=
  is_space c || Ascii.eqb c "," || Ascii.eqb c "(" || Ascii.eqb c ")".

(** [re.sub(r'#.*?$', r'', assembly, flags=re.MULTILINE)]: [.] matches
    every character but LF and [$] holds before an LF and at the end, so
    a match runs from [#] up to the next LF (excluded) or to the end. *)
Fixpoint strip_comments (in_comment : bool) (s : string) : string :=
  match s with
  | "" => ""
  | String c s' =>
      if Ascii.eqb c (chr 10) then String c (strip_comments false s')
      else if in_comment then strip_comments true s'
      else if Ascii.eqb c "#" then strip_comments true s'
      else String c (strip_comments false s')
  end.

(** [str.splitlines()]; [cur] is the current line, reversed, and
    [after_cr] tells that the previous character was a CR. *)
Fixpoint splitlines_go (after_cr : bool) (cur : string) (s : string)
  : list string :=
  match s with
  | "" => match cur with "" => [] | _ => [String.rev cur] end
  | String c s' =>
      if after_cr && Ascii.eqb c (chr 10) then splitlines_go false cur s'
      else if is_linebreak c then
        String.rev cur :: splitlines_go (Ascii.eqb c (chr 13)) "" s'
      else splitlines_go false (String c cur) s'
  end.
Definition splitlines (s : string) : list string := splitlines_go false "" s.

Fixpoint lstrip (s : string) : string :=
  match s with
  | "" => ""
  | String c s' => if is_space c then lstrip s' else s
  end.
Definition strip (s : string) : string :=
  String.rev (lstrip (String.rev (lstrip s))).

(** [re.split(r'[\s,()]+', line)]: the pieces between the maximal runs
    of separators, the (possibly empty) first and last ones included.
    [cur] is the current piece, reversed; [in_sep] tells that the
    previous character was a separator. *)
Fixpoint re_split_go (in_sep : bool) (cur : string) (s : string)
  : list string :=
  match s with
  | "" => [String.rev cur]
  | String c s' =>
      if is_separator c then
        if in_sep then re_split_go true cur s'
        else String.rev cur :: re_split_go true "" s'
      else re_split_go false (String c cur) s'
  end.
Definition re_split (s : string) : list string := re_split_go false "" s.

Definition nonempty (s : string) : bool :=
  match s with "" => false | _ => true end.

Definition lex_assembly (assembly : string) : list (list string) :=
  (* strip comments *)
  let assembly := strip_comments false assembly in
  (* split into lines *)
  let lines := splitlines assembly in
  (* strip whitespace *)
  let lines := map strip lines in
  (* skip empty lines *)
  let lines := filter (fun line => nonempty line) lines in
  (* split lines into tokens *)
  let items := map re_split lines in
  (* remove empty tokens *)
  map (filter (fun tok => nonempty tok)) items.

(** ** Program builder *)

(** [str.lower] on ASCII. *)
Definition lower_char (c : ascii) : ascii :=
  let n := nat_of_ascii c in
  if ((65 <=? n) && (n <=? 90))%nat then ascii_of_nat (n + 32) else c.
Fixpoint lower (s : string) : string :=
  match s with
  | "" => ""
  | String c s' => String (lower_char c) (lower s')
  end.

(** [s.endswith(':')] *)
Definition endswith_colon (s : string) : bool :=
  match String.rev s with
  | String c _ => Ascii.eqb c ":"
  | "" => false
  end.

(** [s.rstrip(':')] *)
Fixpoint lstrip_colon (s : string) : string :=
  match s with
  | "" => ""
  | String c s' => if Ascii.eqb c ":" then lstrip_colon s' else s
  end.
Definition rstrip_colon (s : string) : string :=
  String.rev (lstrip_colon (String.rev s)).

(** [' '.join(l)] *)
Fixpoint join (l : list string) : string :=
  match l with
  | [] => ""
  | [x] => x
  | x :: l' => x +:+ " " +:+ join l'
  end.

(** [l[i]] on a list of tokens. *)
Definition index (l : list string) (i : nat) : res string :=
  match l !! i with
  | Some x => Ok x
  | None => Err IndexError
  end.

(** The values [eval] returns, and [eval] itself. *)
Variable pyobj : Type.
Variable py_eval : string -> res pyobj.

(** One iteration of the loop of [parse_assembly].  The state is the
    variable context and the program built so far.  The nested
    [parse_immediate] takes two parameters and its only call site passes
    one, so that call raises [TypeError] before the body runs. *)
Definition parse_item (st : gmap string pyobj * list item) (it : list string)
  : res (gmap string pyobj * list item) :=
  let '(context, program) := st in
  (* labels *)
  if (length it =? 1)%nat && endswith_colon (default "" (it !! 0%nat)) then
    label ← index it 0;
    let label := rstrip_colon label in
    Ok (context, (program ++ [Label label])%list)
  (* variable assignment *)
  else if (3 <=? length it)%nat && bool_decide (it !! 1%nat = Some "=") then
    name ← index it 0;
    let expr := join (drop 2 it) in
    v ← py_eval expr;
    Ok (<[name := v]> context, program)
  else
    it0 ← index it 0;
    (* blobs *)
    if String.eqb (lower it0) "blob" then
      data ← index it 1;
      let data := list_byte_of_string data in
      Ok (context, (program ++ [Blob data])%list)
    (* packs *)
    else if String.eqb (lower it0) "pack" then
      fmt ← index it 1;
      Err TypeError
    (* r-type instructions *)
    else if bool_decide (is_Some (R_TYPE_INSTRUCTIONS !! lower it0)) then
      Ok (context, program)
    else Err (SystemExit ("invalid item: " +:+ join it)).

Definition parse_assembly (items : list (list string)) : res (list item) :=
  '(_, program) ← for_each parse_item (∅, []) items;
  Ok program.

(** ** Pass 1: aligns *)

(** [struct.calcsize(fmt)]; it raises [struct.error] on a bad format. *)
Variable calcsize : string -> res Z.

(** One iteration of the loop of [resolve_aligns]; the state is
    [(position, output)].  [position % item.alignment] raises
    [ZeroDivisionError] for a zero alignment, and [b'\x00' * padding] is
    empty for a padding that is not positive. *)
Definition resolve_aligns_item (st : Z * list item) (it : item)
  : res (Z * list item) :=
  let '(position, output) := st in
  match it with
  | Align alignment =>
      if alignment =? 0 then Err ZeroDivisionError
      else
        let padding := alignment - position mod alignment in
        if padding =? alignment then Ok (position, output)
        else
          Ok (position + padding,
              output ++ [Blob (repeat x00 (Z.to_nat padding))])%list
  | Blob data =>
      Ok (position + Z.of_nat (length data), output ++ [it])%list
  | Pack fmt _ =>
      size ← calcsize fmt;
      Ok (position + size, output ++ [it])%list
  | _ =>
      Ok (position + 4, output ++ [it])%list
  end.

Definition resolve_aligns (program : list item) : res (list item) :=
  '(_, output) ← for_each resolve_aligns_item (0, []) program;
  Ok output.

(** ** Pass 2: labels *)

(** The state is [(position, output, labels)]. *)
Definition resolve_labels_item (st : Z * list item * gmap string Z) (it : item)
  : res (Z * list item * gmap string Z) :=
  let '(position, output, labels) := st in
  match it with
  | Label name => Ok (position, output, <[name := position]> labels)
  | _ => Ok (position + len_item it, (output ++ [it])%list, labels)
  end.

Definition resolve_labels (program : list item)
  : res (list item * gmap string Z) :=
  '(_, output, labels) ← for_each resolve_labels_item (0, [], ∅) program;
  Ok (output, labels).

(** ** Pass 3: immediates *)

(** [labels[key]] *)
Definition getitem (labels : gmap string Z) (key : string) : res Z :=
  match labels !! key with
  | Some v => Ok v
  | None => Err (KeyError key)
  end.

(** [imm.base] where [imm] is a [Position]: the tuple has the fields
    [label] and [value] and no [base]. *)
Definition Position_base (label : string) (value : Z) : res Z :=
  Err AttributeError.

(** [w.imm] where [w] is a [Hi] or a [Lo]: the tuple has the one field
    [value]. *)
Definition wrapper_imm (value : immediate) : res immediate :=
  Err AttributeError.

(** [item.imm = v]: a named tuple does not allow assignment to a field. *)
Definition set_imm (it : item) (v : immediate) : res item :=
  Err AttributeError.

(** [item.imm.imm = v]: [item.imm] is a [Hi] or a [Lo], a named tuple
    again, and [imm] is not even one of its fields. *)
Definition set_imm_imm (it : item) (v : immediate) : res item :=
  Err AttributeError.

(** The body of the [if type(item) in immediates] of [resolve_immediates]. *)
Definition resolve_immediate (labels : gmap string Z) (position : Z)
  (it : item) (imm : immediate) : res item :=
  match imm with
  | Position label value =>
      dest ← getitem labels label;
      base ← Position_base label value;
      set_imm it (Int (dest + base))
  | Offset label =>
      dest ← getitem labels label;
      set_imm it (Int (dest - position))
  | Hi value | Lo value =>
      imm ← wrapper_imm value;
      match imm with
      | Position label value =>
          dest ← getitem labels label;
          base ← Position_base label value;
          set_imm_imm it (Int (dest + base))
      | Offset label =>
          dest ← getitem labels label;
          set_imm_imm it (Int (dest - position))
      | _ => Ok it
      end
  | Int _ => Ok it
  end.

(** The state is [(position, output)]. *)
Definition resolve_immediates_item (labels : gmap string Z)
  (st : Z * list item) (it : item) : res (Z * list item) :=
  let '(position, output) := st in
  it ← match item_imm it with
       | Some imm => resolve_immediate labels position it imm
       | None => Ok it
       end;
  Ok (position + len_item it, output ++ [it])%list.

Definition resolve_immediates (program : list item) (labels : gmap string Z)
  : res (list item) :=
  '(_, output) ← for_each (resolve_immediates_item labels) (0, []) program;
  Ok output.

(** ** Pass 4: relocations *)

Definition resolve_relocations_item (output : list item) (it : item)
  : res (list item) :=
  it ← match item_imm it with
       | Some (Hi value) =>
           v ← wrapper_imm value;
           match v with
           | Int n => v ← relocate_hi n; set_imm it (Int v)
           | _ => Err TypeError
           end
       | Some (Lo value) =>
           v ← wrapper_imm value;
           match v with
           | Int n => v ← relocate_lo n; set_imm it (Int v)
           | _ => Err TypeError
           end
       | _ => Ok it
       end;
  Ok (output ++ [it])%list.

Definition resolve_relocations (program : list item) : res (list item) :=
  for_each resolve_relocations_item [] program.

(** ** Pass 5: assemble *)

(** [bytes(item)] on a named tuple builds the byte string from the
    fields, each of which has to be an integer in [range(256)]: a string
    or bytes field raises [TypeError].  Every item but [Align] starts
    with such a field. *)
Definition bytes_of_item (it : item) : res (list byte) :=
  match it with
  | Align alignment =>
      if (0 <=? alignment) && (alignment <? 256) then Ok [byte_of_Z alignment]
      else Err (ValueError ByteOutOfRange)
  | _ => Err TypeError
  end.

Definition assemble_item (output : list byte) (it : item) : res (list byte) :=
  bs ← bytes_of_item it;
  Ok (output ++ bs)%list.

Definition assemble (program : list item) : res (list byte) :=
  for_each assemble_item [] program.

(** ** The passes in sequence

    The module has no driver that runs them all ([__main__] stops after
    [parse_assembly]); this is the order its comment on the passes gives. *)
Definition assemble_text (assembly : string) : res (list byte) :=
  let items := lex_assembly assembly in
  prog ← parse_assembly items;
  prog ← resolve_aligns prog;
  '(prog, labels) ← resolve_labels prog;
  prog ← resolve_immediates prog labels;
  prog ← resolve_relocations prog;
  assemble prog.

End Assembler.

(** ** Auxiliary definitions used to state the properties *)

(** A model of the builtin [int] on ASCII strings: surrounding white
    space, an optional sign, then decimal digits that single underscores
    may separate. *)
Definition digit_of (c : ascii) : option Z :=
  let n := nat_of_ascii c in
  if ((48 <=? n) && (n <=? 57))%nat then Some (Z.of_nat n - 48) else None.

Fixpoint digits_go (acc : Z) (after_digit : bool) (s : string) : option Z :=
  match s with
  | "" => if after_digit then Some acc else None
  | String c s' =>
      match digit_of c with
      | Some d => digits_go (10 * acc + d) true s'
      | None =>
          if Ascii.eqb c "_" && after_digit then digits_go acc false s'
          else None
      end
  end.

Definition int_of_str (s : string) : option Z :=
  match strip s with
  | String "+" s' => digits_go 0 false s'
  | String "-" s' => Z.opp <$> digits_go 0 false s'
  | s' => digits_go 0 false s'
  end.

(** The two's-complement reading of a [w]-bit field [x]. *)
Definition signed (w x : Z) : Z := if x <? 2 ^ (w - 1) then x else x - 2 ^ w.

(** The field of [n] bits of [w] that starts at bit [lo]. *)
Definition bits_of (w lo n : Z) : Z := (w / 2 ^ lo) mod 2 ^ n.

(** The number a register operand stands for, before the range check. *)
Definition register_number (py_int : string -> option Z) (reg : reg_operand)
  : option Z :=
  match reg with
  | RegInt n => Some n
  | RegStr s =>
      match REGISTERS !! s with
      | Some n => Some n
      | None => py_int s
      end
  end.

(** The items [resolve_labels] forwards. *)
Definition not_Label (it : item) : bool := negb (is_Label it).

(** An immediate that needs no resolution. *)
Definition plain_imm (it : item) : Prop :=
  match item_imm it with
  | Some (Int _) | None => True
  | Some _ => False
  end.

(** The align pass as the specification words it: the position advances
    by the number of bytes an item emits, which is 0 for a label. *)
Definition emitted_length (calcsize : string -> res Z) (it : item) : res Z :=
  match it with
  | Label _ => Ok 0
  | Blob data => Ok (Z.of_nat (length data))
  | Pack fmt _ => calcsize fmt
  | _ => Ok 4
  end.

Definition spec_aligns_item (calcsize : string -> res Z)
  (st : Z * list item) (it : item) : res (Z * list item) :=
  let '(position, output) := st in
  match it with
  | Align alignment =>
      if alignment =? 0 then Err ZeroDivisionError
      else
        let padding := alignment - position mod alignment in
        if padding =? alignment then Ok (position, output)
        else
          Ok (position + padding,
              output ++ [Blob (repeat x00 (Z.to_nat padding))])%list
  | _ =>
      size ← emitted_length calcsize it;
      Ok (position + size, output ++ [it])%list
  end.

Definition spec_aligns (calcsize : string -> res Z) (program : list item)
  : res (list item) :=
  '(_, output) ← for_each (spec_aligns_item calcsize) (0, []) program;
  Ok output.

(** Reading an immediate back from an instruction word, field by field
    as the RV32I formats place them (the module has no decoder; these
    state what a reader of the encoded word recovers). *)
Definition decode_i_imm (w : Z) : Z := signed 12 (bits_of w 20 12).

Definition decode_s_imm (w : Z) : Z :=
  signed 12 (bits_of w 7 5 + 2 ^ 5 * bits_of w 25 7).

Definition decode_b_imm (w : Z) : Z :=
  2 * signed 12 (bits_of w 8 4 + 2 ^ 4 * bits_of w 25 6
                 + 2 ^ 10 * bits_of w 7 1 + 2 ^ 11 * bits_of w 31 1).

Definition decode_u_imm (w : Z) : Z := signed 20 (bits_of w 12 20).

Definition decode_j_imm (w : Z) : Z :=
  2 * signed 20 (bits_of w 21 10 + 2 ^ 10 * bits_of w 20 1
                 + 2 ^ 11 * bits_of w 12 8 + 2 ^ 19 * bits_of w 31 1).

(** Every character of a string passes a test. *)
Fixpoint string_forall (p : ascii -> bool) (s : string) : bool :=
  match s with
  | "" => true
  | String c s' => p c && string_forall p s'
  end.

(** The characters a token may be made of: no separator and no [#]. *)
Definition token_char (c : ascii) : bool :=
  negb (is_separator c) && negb (Ascii.eqb c "#").

Definition not_LF (c : ascii) : bool := negb (Ascii.eqb c (chr 10)).

(** A text that is empty or starts with a line feed ends a comment. *)
Definition ends_comment (t : string) : bool :=
  match t with
  | "" => true
  | String c _ => Ascii.eqb c (chr 10)
  end.


Definition is_Align (it : item) : bool :=
  match it with Align _ => true | _ => false end.


(** A program and what the align pass may return for it: an [Align] is
    dropped or replaced by a blob of zero bytes, every other item is
    kept. *)
Inductive aligns_resolved : list item -> list item -> Prop :=
  | aligns_nil : aligns_resolved [] []
  | aligns_drop (n : Z) (program output : list item) :
      aligns_resolved program output ->
      aligns_resolved (Align n :: program) output
  | aligns_pad (n : Z) (k : nat) (program output : list item) :
      aligns_resolved program output ->
      aligns_resolved (Align n :: program) (Blob (repeat x00 k) :: output)
  | aligns_keep (it : item) (program output : list item) :
      is_Align it = false ->
      aligns_resolved program output ->
      aligns_resolved (it :: program) (it :: output).

(** The sum of [len(item)] over the items that are not labels. *)
Fixpoint fields_before (program : list item) : Z :=
  match program with
  | [] => 0
  | it :: program' =>
      (if is_Label it then 0 else len_item it) + fields_before program'
  end.

(** The exception [resolve_immediates] ends with on a symbolic
    immediate. *)
Definition symbolic_error (labels : gmap string Z) (imm : immediate) : exn :=
  match imm with
  | Position label _ | Offset label =>
      match labels !! label with
      | Some _ => AttributeError
      | None => KeyError label
      end
  | _ => AttributeError
  end.

(** An immediate wrapped in [Hi] or [Lo]. *)
Definition wrapped_imm (it : item) : bool :=
  match item_imm it with
  | Some (Hi _) | Some (Lo _) => true
  | _ => false
  end.

(** The sum of [len(item)] over all the items. *)
Fixpoint fields_sum (program : list item) : Z :=
  match program with
  | [] => 0
  | it :: program' => len_item it + fields_sum program'
  end.

(** * Properties *)

(** ** Sign extension and relocation *)

Lemma land_pow2 (x k : Z) :
  0 <= k -> Z.land x (2 ^ k) = 2 ^ k * ((x / 2 ^ k) mod 2).
Proof.
  intros Hk. rewrite <- Z.testbit_spec' by assumption.
  apply Z.bits_inj'. intros i Hi.
  rewrite Z.land_spec, Z.pow2_bits_eqb by assumption.
  destruct (Z.eqb_spec k i) as [->|Hne].
  - rewrite andb_true_r. destruct (Z.testbit x i); cbn [Z.b2z].
    + now rewrite Z.mul_1_r, Z.pow2_bits_eqb, Z.eqb_refl.
    + now rewrite Z.mul_0_r, Z.bits_0.
  - rewrite andb_false_r. destruct (Z.testbit x k); cbn [Z.b2z].
    + rewrite Z.mul_1_r, Z.pow2_bits_eqb by assumption.
      symmetry. now apply Z.eqb_neq.
    + now rewrite Z.mul_0_r, Z.bits_0.
Qed.

Lemma pow2_pred (w : Z) : 1 <= w -> 2 ^ w = 2 * 2 ^ (w - 1).
Proof.
  intros Hw. rewrite <- Z.pow_succ_r by lia. f_equal. lia.
Qed.

Lemma sign_extend_field (x bits : Z) :
  1 <= bits -> 0 <= x < 2 ^ bits ->
  sign_extend x bits = Ok (signed bits x).
Proof.
  intros Hb Hx. unfold sign_extend, py_shiftl.
  destruct (Z.ltb_spec (bits - 1) 0); [lia|]. cbn.
  rewrite Z.shiftl_1_l. f_equal.
  replace (2 ^ (bits - 1) - 1) with (Z.ones (bits - 1))
    by (rewrite Z.ones_equiv; lia).
  rewrite Z.land_ones, land_pow2 by lia.
  pose proof (pow2_pred bits Hb) as Hp.
  assert (Hpos : 0 < 2 ^ (bits - 1)) by (apply Z.pow_pos_nonneg; lia).
  unfold signed. rewrite Hp in *.
  pose proof (Z.div_mod x (2 ^ (bits - 1)) ltac:(lia)) as Hdm.
  pose proof (Z.mod_pos_bound x (2 ^ (bits - 1)) Hpos) as Hm.
  set (p := 2 ^ (bits - 1)) in *.
  set (q := x / p) in *. set (r := x mod p) in *.
  clearbody q r p.
  assert (Hq0 : 0 <= q) by (clear Hp; nia).
  assert (Hq1 : q <= 1) by (clear Hp; nia).
  assert (Hq : q = 0 \/ q = 1) by (clear - Hq0 Hq1; lia).
  destruct Hq as [Hq|Hq]; rewrite Hq in *.
  - change (0 mod 2) with 0. destruct (Z.ltb_spec x p); lia.
  - change (1 mod 2) with 1. destruct (Z.ltb_spec x p); lia.
Qed.

Lemma signed_range (w x : Z) :
  1 <= w -> 0 <= x < 2 ^ w -> - 2 ^ (w - 1) <= signed w x < 2 ^ (w - 1).
Proof.
  intros Hw Hx. unfold signed.
  pose proof (pow2_pred w Hw) as Hp.
  destruct (Z.ltb_spec x (2 ^ (w - 1))); lia.
Qed.


(** Bit 11 as the source tests it. *)
Lemma land_0x800 (v : Z) :
  (Z.land v 0x800 =? 0) = negb (Z.testbit v 11).
Proof.
  change 0x800 with (2 ^ 11). rewrite land_pow2 by lia.
  rewrite <- Z.testbit_spec' by lia.
  destruct (Z.testbit v 11); reflexivity.
Qed.

(** What [relocate_hi] and [relocate_lo] compute, in the words of the
    relocation scheme: the upper 20 bits of the corrected value and the
    lower 12 bits of the value, each read as a signed field. *)
Lemma relocate_hi_value (v : Z) :
  relocate_hi v =
  Ok (signed 20 (((if Z.testbit v 11 then v + 4096 else v) / 2 ^ 12) mod 2 ^ 20)).
Proof.
  unfold relocate_hi. rewrite land_0x800.
  change 0x000fffff with (Z.ones 20).
  rewrite Z.land_ones, Z.shiftr_div_pow2 by lia.
  rewrite sign_extend_field.
  - destruct (Z.testbit v 11); reflexivity.
  - lia.
  - apply Z.mod_pos_bound. lia.
Qed.

Lemma relocate_lo_value (v : Z) :
  relocate_lo v = Ok (signed 12 (v mod 2 ^ 12)).
Proof.
  unfold relocate_lo. change 0x00000fff with (Z.ones 12).
  rewrite Z.land_ones by lia.
  apply sign_extend_field; [lia|]. apply Z.mod_pos_bound. lia.
Qed.

Lemma testbit_11_mod (v : Z) :
  Z.b2z (Z.testbit v 11) = (v mod 2 ^ 12) / 2 ^ 11.
Proof.
  rewrite Z.testbit_spec' by lia.
  change (2 ^ 12) with (2 ^ 11 * 2).
  rewrite Z.rem_mul_r by lia.
  pose proof (Z.mod_pos_bound v (2 ^ 11) ltac:(lia)).
  pose proof (Z.mod_pos_bound (v / 2 ^ 11) 2 ltac:(lia)).
  apply Z.div_unique with (r := v mod 2 ^ 11); lia.
Qed.

(** C2: splitting a value into its relocated upper and lower parts loses
    nothing: [relocate_hi] is the signed 20-bit field taken from bits
    31..12 of the value corrected by 4096 when bit 11 is set,
    [relocate_lo] is the signed 12-bit field of bits 11..0, and
    [(hi << 12) + lo] is the value again modulo [2^32]. *)
Theorem relocate_hi_lo_roundtrip (v : Z) :
  exists hi lo,
    relocate_hi v = Ok hi /\ relocate_lo v = Ok lo /\
    hi = signed 20 (((if Z.testbit v 11 then v + 4096 else v) / 2 ^ 12) mod 2 ^ 20) /\
    lo = signed 12 (v mod 2 ^ 12) /\
    (Z.shiftl hi 12 + lo) mod 2 ^ 32 = v mod 2 ^ 32.
Proof.
  eexists _, _.
  split; [apply relocate_hi_value|].
  split; [apply relocate_lo_value|].
  split; [reflexivity|]. split; [reflexivity|].
  rewrite Z.shiftl_mul_pow2 by lia.
  pose proof (testbit_11_mod v) as Hbit.
  unfold signed. change (20 - 1) with 19. change (12 - 1) with 11.
  destruct (Z.testbit v 11); cbn [Z.b2z] in Hbit;
    repeat match goal with
           | |- context [?a <? ?b] => destruct (Z.ltb_spec a b)
           end;
    Z.to_euclidean_division_equations; lia.
Qed.

(** ** Words and fields *)

Lemma testbit_bounded (x k j : Z) :
  0 <= x < 2 ^ k -> k <= j -> Z.testbit x j = false.
Proof.
  intros Hx Hj.
  assert (0 <= k).
  { destruct (Z.le_gt_cases 0 k); [assumption|].
    rewrite Z.pow_neg_r in Hx by assumption. lia. }
  rewrite <- (Z.mod_small x (2 ^ k)) by assumption.
  apply Z.mod_pow2_bits_high. lia.
Qed.

(** Below a field boundary, [|] with a shifted value is a sum. *)
Lemma lor_shiftl_add (a x s : Z) :
  0 <= s -> 0 <= a < 2 ^ s -> Z.lor a (Z.shiftl x s) = a + x * 2 ^ s.
Proof.
  intros Hs Ha.
  rewrite <- Z.shiftl_mul_pow2 by assumption.
  rewrite <- Z.lxor_lor, Z.add_nocarry_lxor; try reflexivity.
  all: apply Z.bits_inj'; intros j Hj; rewrite Z.land_spec, Z.bits_0;
    destruct (Z.lt_ge_cases j s);
    [ now rewrite Z.shiftl_spec_low, andb_false_r
    | now rewrite (testbit_bounded a s j) ].
Qed.

Lemma Z_of_byte_of_Z (z : Z) : Z_of_byte (byte_of_Z z) = z mod 256.
Proof.
  unfold Z_of_byte, byte_of_Z.
  pose proof (Z.mod_pos_bound z 256 ltac:(lia)) as Hz.
  destruct (Byte.of_N (Z.to_N (z mod 256))) as [b|] eqn:E.
  - apply Byte.to_of_N in E. rewrite E. lia.
  - apply Byte.of_N_None_iff in E. lia.
Qed.

(** [struct.pack('<I', code)] succeeds on a 32-bit word, gives four
    bytes, and these read back as the word. *)
Lemma pack_I_word (code : Z) :
  0 <= code < 2 ^ 32 ->
  exists bs, pack_I code = Ok bs /\ length bs = 4%nat /\ le_word bs = code.
Proof.
  intros Hc. unfold pack_I.
  destruct (Z.leb_spec 0 code); [|lia].
  destruct (Z.ltb_spec code (2 ^ 32)); [|lia].
  eexists. split; [reflexivity|]. split; [reflexivity|].
  cbn [le_word]. rewrite !Z_of_byte_of_Z, !Z.shiftr_div_pow2 by lia.
  change (2 ^ 32) with 4294967296 in *.
  Z.to_euclidean_division_equations. lia.
Qed.

Lemma pack_I_error (code : Z) :
  ~ 0 <= code < 2 ^ 32 -> pack_I code = Err StructError.
Proof.
  intros Hc. unfold pack_I.
  destruct (Z.leb_spec 0 code), (Z.ltb_spec code (2 ^ 32)); try reflexivity.
  lia.
Qed.

(** ** Registers *)

Section RegisterProperties.

Variable py_int : string -> option Z.

Lemma resolve_register_unfold (reg : reg_operand) :
  resolve_register py_int reg =
  match register_number py_int reg with
  | Some n =>
      if (n <? 0) || (n >? 31) then Err (ValueError RegisterOutOfRange)
      else Ok n
  | None => Err (ValueError RegisterNotNumber)
  end.
Proof.
  unfold resolve_register, register_number.
  destruct reg as [k|s]; [reflexivity|].
  destruct (REGISTERS !! s) as [k|]; [reflexivity|].
  destruct (py_int s); reflexivity.
Qed.

Lemma resolve_register_range (reg : reg_operand) (n : Z) :
  resolve_register py_int reg = Ok n -> 0 <= n <= 31.
Proof.
  rewrite resolve_register_unfold.
  destruct (register_number py_int reg) as [k|]; [|discriminate].
  destruct (Z.ltb_spec k 0), (Z.gtb_spec k 31); cbn [orb];
    intros Heq; inversion Heq; subst; lia.
Qed.

Lemma resolve_register_int (k : Z) :
  0 <= k <= 31 -> resolve_register py_int (RegInt k) = Ok k.
Proof.
  intros Hk. rewrite resolve_register_unfold. cbn [register_number].
  destruct (Z.ltb_spec k 0), (Z.gtb_spec k 31); cbn [orb];
    (reflexivity || lia).
Qed.

Lemma resolve_register_error (reg : reg_operand) (e : exn) :
  resolve_register py_int reg = Err e ->
  e = ValueError RegisterNotNumber \/ e = ValueError RegisterOutOfRange.
Proof.
  rewrite resolve_register_unfold.
  destruct (register_number py_int reg) as [k|].
  - destruct (_ || _); intros Heq; inversion Heq; auto.
  - intros Heq; inversion Heq; auto.
Qed.

(** Every entry of the register table is a register number. *)
Lemma REGISTERS_range (s : string) (n : Z) :
  REGISTERS !! s = Some n -> 0 <= n <= 31.
Proof.
  intros H. apply (elem_of_list_to_map_2 (M := gmap string)) in H.
  repeat (apply elem_of_cons in H as [H|H]; [inversion H; lia|]).
  now apply elem_of_nil in H.
Qed.

End RegisterProperties.

(** ** Encoders *)

Lemma land_mask (x k : Z) : 0 <= k -> Z.land x (2 ^ k - 1) = x mod 2 ^ k.
Proof.
  intros Hk. rewrite <- Z.land_ones by assumption.
  f_equal. rewrite Z.ones_equiv. lia.
Qed.

Lemma c_uint32_low (x k : Z) :
  0 <= k <= 32 -> c_uint32 x mod 2 ^ k = x mod 2 ^ k.
Proof.
  intros Hk. unfold c_uint32.
  replace 32 with (k + (32 - k)) by lia.
  rewrite Z.pow_add_r by lia.
  rewrite Z.rem_mul_r by (try apply Z.pow_nonzero; try apply Z.pow_pos_nonneg; lia).
  rewrite Z.mul_comm, Z.mod_add by (apply Z.pow_nonzero; lia).
  apply Z.mod_mod. apply Z.pow_nonzero; lia.
Qed.

Section EncoderProperties.

Variable py_int : string -> option Z.

(** The word an accepted I-type instruction is packed from, as a sum of
    its fields. *)
Lemma i_type_word (rd rs1 : reg_operand) (a b imm opcode funct3 : Z) :
  resolve_register py_int rd = Ok a ->
  resolve_register py_int rs1 = Ok b ->
  0 <= opcode < 2 ^ 7 -> 0 <= funct3 < 2 ^ 3 ->
  -2048 <= imm <= 2047 ->
  i_type py_int rd rs1 imm opcode funct3 =
  pack_I (opcode + a * 2 ^ 7 + funct3 * 2 ^ 12 + b * 2 ^ 15
          + (imm mod 2 ^ 12) * 2 ^ 20).
Proof.
  intros Hrd Hrs1 Hop Hf3 Himm.
  apply resolve_register_range in Hrd as Ha.
  apply resolve_register_range in Hrs1 as Hb.
  unfold i_type. rewrite Hrd, Hrs1. unfold mbind, res_bind.
  destruct (Z.ltb_spec imm (-0x800)), (Z.gtb_spec imm 0x7ff); try lia.
  cbn [orb]. f_equal.
  change 0xfff with (2 ^ 12 - 1). rewrite land_mask, c_uint32_low by lia.
  pose proof (Z.mod_pos_bound imm (2 ^ 12) ltac:(lia)) as Hm.
  rewrite Z.lor_0_l.
  rewrite (lor_shiftl_add opcode) by lia.
  rewrite (lor_shiftl_add (opcode + _)) by lia.
  rewrite (lor_shiftl_add (opcode + _ + _)) by lia.
  rewrite (lor_shiftl_add (opcode + _ + _ + _)) by lia.
  reflexivity.
Qed.

Lemma i_type_out_of_range (rd rs1 : reg_operand) (a b imm opcode funct3 : Z) :
  resolve_register py_int rd = Ok a ->
  resolve_register py_int rs1 = Ok b ->
  ~ -2048 <= imm <= 2047 ->
  i_type py_int rd rs1 imm opcode funct3 = Err (ValueError Imm12Range).
Proof.
  intros Hrd Hrs1 Himm.
  unfold i_type. rewrite Hrd, Hrs1. unfold mbind, res_bind.
  destruct (Z.ltb_spec imm (-0x800)), (Z.gtb_spec imm 0x7ff);
    (reflexivity || lia).
Qed.

(** The fields of the halved branch immediate, as [b_type] cuts them. *)
Lemma b_type_word (rs1 rs2 : reg_operand) (a b imm opcode funct3 : Z) :
  resolve_register py_int rs1 = Ok a ->
  resolve_register py_int rs2 = Ok b ->
  0 <= opcode < 2 ^ 7 -> 0 <= funct3 < 2 ^ 3 ->
  -4096 <= imm <= 4095 -> imm mod 2 <> 1 ->
  b_type py_int rs1 rs2 imm opcode funct3 =
  pack_I (opcode
          + bits_of (imm / 2) 10 1 * 2 ^ 7
          + bits_of (imm / 2) 0 4 * 2 ^ 8
          + funct3 * 2 ^ 12 + a * 2 ^ 15 + b * 2 ^ 20
          + bits_of (imm / 2) 4 6 * 2 ^ 25
          + bits_of (imm / 2) 11 1 * 2 ^ 31).
Proof.
  intros Hrs1 Hrs2 Hop Hf3 Himm Hpar.
  apply resolve_register_range in Hrs1 as Ha.
  apply resolve_register_range in Hrs2 as Hb.
  unfold b_type. rewrite Hrs1, Hrs2. unfold mbind, res_bind.
  destruct (Z.ltb_spec imm (-0x1000)), (Z.gtb_spec imm 0x0fff); try lia.
  cbn [orb]. destruct (Z.eqb_spec (imm mod 2) 1); [contradiction|].
  f_equal.
  change 0xfff with (2 ^ 12 - 1). change 0x1 with (2 ^ 1 - 1).
  change 0x3f with (2 ^ 6 - 1). change 0xf with (2 ^ 4 - 1).
  rewrite !land_mask, !Z.shiftr_div_pow2, c_uint32_low by lia.
  set (h := imm / 2).
  assert (E12 : (h mod 2 ^ 12 / 2 ^ 11) mod 2 ^ 1 = bits_of h 11 1).
  { unfold bits_of. Z.to_euclidean_division_equations. lia. }
  assert (E11 : (h mod 2 ^ 12 / 2 ^ 10) mod 2 ^ 1 = bits_of h 10 1).
  { unfold bits_of. Z.to_euclidean_division_equations. lia. }
  assert (E10 : (h mod 2 ^ 12 / 2 ^ 4) mod 2 ^ 6 = bits_of h 4 6).
  { unfold bits_of. Z.to_euclidean_division_equations. lia. }
  assert (E4 : (h mod 2 ^ 12) mod 2 ^ 4 = bits_of h 0 4).
  { unfold bits_of. Z.to_euclidean_division_equations. lia. }
  rewrite E12, E11, E10, E4.
  pose proof (Z.mod_pos_bound (h / 2 ^ 11) (2 ^ 1) ltac:(lia)) as B12.
  pose proof (Z.mod_pos_bound (h / 2 ^ 10) (2 ^ 1) ltac:(lia)) as B11.
  pose proof (Z.mod_pos_bound (h / 2 ^ 4) (2 ^ 6) ltac:(lia)) as B10.
  pose proof (Z.mod_pos_bound (h / 2 ^ 0) (2 ^ 4) ltac:(lia)) as B4.
  fold (bits_of h 11 1) in B12. fold (bits_of h 10 1) in B11.
  fold (bits_of h 4 6) in B10. fold (bits_of h 0 4) in B4.
  rewrite Z.lor_0_l.
  rewrite (lor_shiftl_add opcode) by lia.
  rewrite (lor_shiftl_add (opcode + _)) by lia.
  rewrite (lor_shiftl_add (opcode + _ + _)) by lia.
  rewrite (lor_shiftl_add (opcode + _ + _ + _)) by lia.
  rewrite (lor_shiftl_add (opcode + _ + _ + _ + _)) by lia.
  rewrite (lor_shiftl_add (opcode + _ + _ + _ + _ + _)) by lia.
  rewrite (lor_shiftl_add (opcode + _ + _ + _ + _ + _ + _)) by lia.
  reflexivity.
Qed.

Lemma b_type_checks (rs1 rs2 : reg_operand) (a b imm opcode funct3 : Z) :
  resolve_register py_int rs1 = Ok a ->
  resolve_register py_int rs2 = Ok b ->
  (~ -4096 <= imm <= 4095 ->
   b_type py_int rs1 rs2 imm opcode funct3 = Err (ValueError Imm13Range)) /\
  (-4096 <= imm <= 4095 -> imm mod 2 = 1 ->
   b_type py_int rs1 rs2 imm opcode funct3 = Err (ValueError Imm13Parity)).
Proof.
  intros Hrs1 Hrs2.
  unfold b_type. rewrite Hrs1, Hrs2. unfold mbind, res_bind.
  split.
  - intros Himm.
    destruct (Z.ltb_spec imm (-0x1000)), (Z.gtb_spec imm 0x0fff);
      (reflexivity || lia).
  - intros Himm Hodd.
    destruct (Z.ltb_spec imm (-0x1000)), (Z.gtb_spec imm 0x0fff); try lia.
    cbn [orb]. now rewrite Hodd.
Qed.

Lemma j_type_checks (rd : reg_operand) (a imm opcode : Z) :
  resolve_register py_int rd = Ok a ->
  (~ -1048576 <= imm <= 1048575 ->
   j_type py_int rd imm opcode = Err (ValueError Imm21Range)) /\
  (-1048576 <= imm <= 1048575 -> imm mod 2 = 1 ->
   j_type py_int rd imm opcode = Err (ValueError Imm21Parity)).
Proof.
  intros Hrd.
  unfold j_type. rewrite Hrd. unfold mbind, res_bind.
  split.
  - intros Himm.
    destruct (Z.ltb_spec imm (-0x100000)), (Z.gtb_spec imm 0x0fffff);
      (reflexivity || lia).
  - intros Himm Hodd.
    destruct (Z.ltb_spec imm (-0x100000)), (Z.gtb_spec imm 0x0fffff); try lia.
    cbn [orb]. now rewrite Hodd.
Qed.

Ltac register_cases reg :=
  let a := fresh "a" in
  let e := fresh "e" in
  let E := fresh "E" in
  destruct (resolve_register py_int reg) as [a|e] eqn:E;
  unfold mbind, res_bind; cbn beta iota;
  [ | apply resolve_register_error in E; destruct E; subst; discriminate ].

(** An encoder raises its range error only on an immediate outside its
    range. *)
Lemma i_type_range_error (rd rs1 : reg_operand) (imm opcode funct3 : Z) :
  i_type py_int rd rs1 imm opcode funct3 = Err (ValueError Imm12Range) ->
  ~ -2048 <= imm <= 2047.
Proof.
  unfold i_type. register_cases rd. register_cases rs1.
  destruct (Z.ltb_spec imm (-0x800)), (Z.gtb_spec imm 0x7ff);
    cbn [orb]; try lia.
  unfold pack_I. destruct (_ && _); discriminate.
Qed.

Lemma s_type_range_error (rs1 rs2 : reg_operand) (imm opcode funct3 : Z) :
  s_type py_int rs1 rs2 imm opcode funct3 = Err (ValueError Imm12Range) ->
  ~ -2048 <= imm <= 2047.
Proof.
  unfold s_type. register_cases rs1. register_cases rs2.
  destruct (Z.ltb_spec imm (-0x800)), (Z.gtb_spec imm 0x7ff);
    cbn [orb]; try lia.
  unfold pack_I. destruct (_ && _); discriminate.
Qed.

Lemma u_type_range_error (rd : reg_operand) (imm opcode : Z) :
  u_type py_int rd imm opcode = Err (ValueError Imm20Range) ->
  ~ -524288 <= imm <= 524287.
Proof.
  unfold u_type. register_cases rd.
  destruct (Z.ltb_spec imm (-0x80000)), (Z.gtb_spec imm 0x7ffff);
    cbn [orb]; try lia.
  unfold pack_I. destruct (_ && _); discriminate.
Qed.

Lemma odd_mod2 (z : Z) : Z.odd z = true <-> z mod 2 = 1.
Proof.
  rewrite Zmod_odd. destruct (Z.odd z); split; (reflexivity || discriminate).
Qed.

Lemma even_mod2 (z : Z) : Z.even z = true <-> z mod 2 <> 1.
Proof.
  rewrite Zmod_odd, <- Z.negb_odd.
  destruct (Z.odd z); cbn; split; try reflexivity; try discriminate; congruence.
Qed.

(** C8: the register resolver.  A token that is a name of the register
    table resolves to its entry, which is in [0, 31]; any other token
    resolves to the integer it parses to when that is in [0, 31]; a
    token that is neither a name nor a numeral, and a numeral outside
    [0, 31], are rejected with the two register errors; and whatever
    the operand, a result is in [0, 31]. *)
Theorem resolve_register_spec (tok : string) :
  (forall n, REGISTERS !! tok = Some n ->
     resolve_register py_int (RegStr tok) = Ok n /\ 0 <= n <= 31) /\
  (forall n, REGISTERS !! tok = None -> py_int tok = Some n -> 0 <= n <= 31 ->
     resolve_register py_int (RegStr tok) = Ok n) /\
  (REGISTERS !! tok = None -> py_int tok = None ->
     resolve_register py_int (RegStr tok) = Err (ValueError RegisterNotNumber)) /\
  (forall n, REGISTERS !! tok = None -> py_int tok = Some n -> n < 0 \/ 31 < n ->
     resolve_register py_int (RegStr tok) = Err (ValueError RegisterOutOfRange)) /\
  (forall reg n, resolve_register py_int reg = Ok n -> 0 <= n <= 31).
Proof.
  rewrite resolve_register_unfold. cbn [register_number].
  split; [|split; [|split; [|split]]].
  - intros n Hname. rewrite Hname. apply REGISTERS_range in Hname.
    destruct (Z.ltb_spec n 0), (Z.gtb_spec n 31); cbn [orb];
      (split; [reflexivity || lia | lia]).
  - intros n Hname Hint Hn. rewrite Hname, Hint.
    destruct (Z.ltb_spec n 0), (Z.gtb_spec n 31); cbn [orb];
      (reflexivity || lia).
  - intros Hname Hint. now rewrite Hname, Hint.
  - intros n Hname Hint Hn. rewrite Hname, Hint.
    destruct (Z.ltb_spec n 0), (Z.gtb_spec n 31); cbn [orb];
      (reflexivity || lia).
  - intros reg n. apply resolve_register_range.
Qed.

(** C7: with registers that resolve and an opcode and funct3 that fit
    their fields, the I-type encoder succeeds exactly when
    [-2048 <= imm <= 2047] and raises the 12-bit range error otherwise;
    on success the result has four bytes and, read as a little-endian
    word, carries the immediate modulo [2^12] (its two's-complement
    12-bit form) in bits 20..31, above the opcode, rd, funct3 and rs1
    fields. *)
Theorem i_type_immediate (rd rs1 : reg_operand) (a b imm opcode funct3 : Z) :
  resolve_register py_int rd = Ok a ->
  resolve_register py_int rs1 = Ok b ->
  0 <= opcode < 2 ^ 7 -> 0 <= funct3 < 2 ^ 3 ->
  (is_ok (i_type py_int rd rs1 imm opcode funct3) = true <->
   -2048 <= imm <= 2047) /\
  (~ -2048 <= imm <= 2047 ->
   i_type py_int rd rs1 imm opcode funct3 = Err (ValueError Imm12Range)) /\
  (-2048 <= imm <= 2047 ->
   exists bs,
     i_type py_int rd rs1 imm opcode funct3 = Ok bs /\ length bs = 4%nat /\
     Z.shiftr (le_word bs) 20 = imm mod 2 ^ 12 /\
     bits_of (le_word bs) 20 12 = imm mod 2 ^ 12 /\
     bits_of (le_word bs) 0 7 = opcode /\ bits_of (le_word bs) 7 5 = a /\
     bits_of (le_word bs) 12 3 = funct3 /\ bits_of (le_word bs) 15 5 = b).
Proof.
  intros Hrd Hrs1 Hop Hf3.
  apply resolve_register_range in Hrd as Ha.
  apply resolve_register_range in Hrs1 as Hb.
  assert (Hok : -2048 <= imm <= 2047 ->
    exists bs,
      i_type py_int rd rs1 imm opcode funct3 = Ok bs /\ length bs = 4%nat /\
      Z.shiftr (le_word bs) 20 = imm mod 2 ^ 12 /\
      bits_of (le_word bs) 20 12 = imm mod 2 ^ 12 /\
      bits_of (le_word bs) 0 7 = opcode /\ bits_of (le_word bs) 7 5 = a /\
      bits_of (le_word bs) 12 3 = funct3 /\ bits_of (le_word bs) 15 5 = b).
  { intros Himm.
    rewrite (i_type_word rd rs1 a b) by assumption.
    pose proof (Z.mod_pos_bound imm (2 ^ 12) ltac:(lia)) as Hm.
    set (f := imm mod 2 ^ 12) in *. clearbody f.
    destruct (pack_I_word (opcode + a * 2 ^ 7 + funct3 * 2 ^ 12 + b * 2 ^ 15
                           + f * 2 ^ 20)) as (bs & Hbs & Hlen & Hw); [lia|].
    exists bs. rewrite Hw, Z.shiftr_div_pow2 by lia. unfold bits_of.
    repeat split; try assumption;
      Z.to_euclidean_division_equations; lia. }
  split; [|split].
  - split.
    + intros His. destruct (Z_le_dec (-2048) imm), (Z_le_dec imm 2047);
        try lia;
        rewrite (i_type_out_of_range rd rs1 a b) in His
          by (assumption || lia); discriminate.
    + intros Himm. destruct (Hok Himm) as (bs & -> & _). reflexivity.
  - apply i_type_out_of_range with (a := a) (b := b); assumption.
  - exact Hok.
Qed.

(** C6: with registers that resolve and an opcode and funct3 that fit
    their fields, the B-type encoder accepts exactly the even immediates
    of [-4096, 4095]: outside the range it raises the range error, on an
    odd immediate of the range the parity error, and otherwise the word
    carries the fields of the halved immediate [imm / 2]: its bits 0..3
    at bits 8..11, its bits 4..9 at bits 25..30, its bit 10 at bit 7 and
    its bit 11 at bit 31. *)
Theorem b_type_immediate (rs1 rs2 : reg_operand) (a b imm opcode funct3 : Z) :
  resolve_register py_int rs1 = Ok a ->
  resolve_register py_int rs2 = Ok b ->
  0 <= opcode < 2 ^ 7 -> 0 <= funct3 < 2 ^ 3 ->
  (is_ok (b_type py_int rs1 rs2 imm opcode funct3) = true <->
   -4096 <= imm <= 4095 /\ Z.even imm = true) /\
  (~ -4096 <= imm <= 4095 ->
   b_type py_int rs1 rs2 imm opcode funct3 = Err (ValueError Imm13Range)) /\
  (-4096 <= imm <= 4095 -> Z.odd imm = true ->
   b_type py_int rs1 rs2 imm opcode funct3 = Err (ValueError Imm13Parity)) /\
  (-4096 <= imm <= 4095 -> Z.even imm = true ->
   exists bs,
     b_type py_int rs1 rs2 imm opcode funct3 = Ok bs /\ length bs = 4%nat /\
     bits_of (le_word bs) 8 4 = bits_of (imm / 2) 0 4 /\
     bits_of (le_word bs) 25 6 = bits_of (imm / 2) 4 6 /\
     bits_of (le_word bs) 7 1 = bits_of (imm / 2) 10 1 /\
     bits_of (le_word bs) 31 1 = bits_of (imm / 2) 11 1).
Proof.
  intros Hrs1 Hrs2 Hop Hf3.
  apply resolve_register_range in Hrs1 as Ha.
  apply resolve_register_range in Hrs2 as Hb.
  destruct (b_type_checks rs1 rs2 a b imm opcode funct3 Hrs1 Hrs2)
    as [Hrange Hparity].
  assert (Hok : -4096 <= imm <= 4095 -> Z.even imm = true ->
    exists bs,
      b_type py_int rs1 rs2 imm opcode funct3 = Ok bs /\ length bs = 4%nat /\
      bits_of (le_word bs) 8 4 = bits_of (imm / 2) 0 4 /\
      bits_of (le_word bs) 25 6 = bits_of (imm / 2) 4 6 /\
      bits_of (le_word bs) 7 1 = bits_of (imm / 2) 10 1 /\
      bits_of (le_word bs) 31 1 = bits_of (imm / 2) 11 1).
  { intros Himm Heven. apply even_mod2 in Heven.
    rewrite (b_type_word rs1 rs2 a b) by assumption.
    set (h := imm / 2).
    pose proof (Z.mod_pos_bound (h / 2 ^ 11) (2 ^ 1) ltac:(lia)) as B12.
    pose proof (Z.mod_pos_bound (h / 2 ^ 10) (2 ^ 1) ltac:(lia)) as B11.
    pose proof (Z.mod_pos_bound (h / 2 ^ 4) (2 ^ 6) ltac:(lia)) as B10.
    pose proof (Z.mod_pos_bound (h / 2 ^ 0) (2 ^ 4) ltac:(lia)) as B4.
    fold (bits_of h 11 1) in B12. fold (bits_of h 10 1) in B11.
    fold (bits_of h 4 6) in B10. fold (bits_of h 0 4) in B4.
    set (f12 := bits_of h 11 1) in *. set (f11 := bits_of h 10 1) in *.
    set (f10 := bits_of h 4 6) in *. set (f4 := bits_of h 0 4) in *.
    clearbody f12 f11 f10 f4.
    destruct (pack_I_word
                (opcode + f11 * 2 ^ 7 + f4 * 2 ^ 8 + funct3 * 2 ^ 12
                 + a * 2 ^ 15 + b * 2 ^ 20 + f10 * 2 ^ 25 + f12 * 2 ^ 31))
      as (bs & Hbs & Hlen & Hw); [lia|].
    exists bs. rewrite Hw. unfold bits_of.
    repeat split; try assumption;
      Z.to_euclidean_division_equations; lia. }
  split; [|split; [|split]].
  - split.
    + intros His.
      destruct (Z_le_dec (-4096) imm), (Z_le_dec imm 4095);
        try (rewrite Hrange in His by lia; discriminate).
      split; [lia|].
      destruct (Z.odd imm) eqn:Hodd.
      * rewrite Hparity in His by (try apply odd_mod2; assumption || lia).
        discriminate.
      * now rewrite <- Z.negb_odd, Hodd.
    + intros [Himm Heven]. destruct (Hok Himm Heven) as (bs & -> & _).
      reflexivity.
  - exact Hrange.
  - intros Himm Hodd. apply Hparity; [assumption|]. now apply odd_mod2.
  - exact Hok.
Qed.

(** C10: the parity check of the B-type and J-type encoders rejects
    every odd immediate of the range, the negative ones too. *)
Theorem parity_check_rejects_odd
  (rs1 rs2 rd : reg_operand) (a b c imm opcode funct3 : Z) :
  resolve_register py_int rs1 = Ok a ->
  resolve_register py_int rs2 = Ok b ->
  resolve_register py_int rd = Ok c ->
  Z.odd imm = true ->
  (-4096 <= imm <= 4095 ->
   b_type py_int rs1 rs2 imm opcode funct3 = Err (ValueError Imm13Parity)) /\
  (-1048576 <= imm <= 1048575 ->
   j_type py_int rd imm opcode = Err (ValueError Imm21Parity)).
Proof.
  intros Hrs1 Hrs2 Hrd Hodd. apply odd_mod2 in Hodd.
  split; intros Himm.
  - now apply (b_type_checks rs1 rs2 a b).
  - now apply (j_type_checks rd c).
Qed.

(** C9: whatever the integer, [relocate_hi] gives a value of the signed
    20-bit range and [relocate_lo] one of the signed 12-bit range, so
    that the U-type encoder on the first and the I-type and S-type
    encoders on the second never raise their range error. *)
Theorem relocation_in_range (v : Z) :
  exists hi lo,
    relocate_hi v = Ok hi /\ relocate_lo v = Ok lo /\
    -524288 <= hi <= 524287 /\ -2048 <= lo <= 2047 /\
    (forall rd opcode,
       u_type py_int rd hi opcode <> Err (ValueError Imm20Range)) /\
    (forall rd rs1 opcode funct3,
       i_type py_int rd rs1 lo opcode funct3 <> Err (ValueError Imm12Range)) /\
    (forall rs1 rs2 opcode funct3,
       s_type py_int rs1 rs2 lo opcode funct3 <> Err (ValueError Imm12Range)).
Proof.
  eexists _, _.
  split; [apply relocate_hi_value|].
  split; [apply relocate_lo_value|].
  assert (Hhi : -524288 <= signed 20 (((if Z.testbit v 11 then v + 4096 else v)
                                       / 2 ^ 12) mod 2 ^ 20) <= 524287).
  { pose proof (signed_range 20 _ ltac:(lia)
                  (Z.mod_pos_bound
                     ((if Z.testbit v 11 then v + 4096 else v) / 2 ^ 12)
                     (2 ^ 20) ltac:(lia))) as H.
    change (20 - 1) with 19 in H. lia. }
  assert (Hlo : -2048 <= signed 12 (v mod 2 ^ 12) <= 2047).
  { pose proof (signed_range 12 _ ltac:(lia)
                  (Z.mod_pos_bound v (2 ^ 12) ltac:(lia))) as H.
    change (12 - 1) with 11 in H. lia. }
  repeat split; try lia.
  - intros rd opcode H. now apply u_type_range_error in H.
  - intros rd rs1 opcode funct3 H. now apply i_type_range_error in H.
  - intros rs1 rs2 opcode funct3 H. now apply s_type_range_error in H.
Qed.

End EncoderProperties.

(** ** The passes *)

Lemma for_each_app {S A : Type} (body : S -> A -> res S) (st : S)
  (l1 l2 : list A) :
  for_each body st (l1 ++ l2) =
  (st' ← for_each body st l1; for_each body st' l2).
Proof.
  revert st. induction l1 as [|x l1 IH]; intros st; cbn [for_each app].
  - reflexivity.
  - unfold mbind, res_bind. destruct (body st x) as [st'|e]; [|reflexivity].
    apply IH.
Qed.

(** The loop of [resolve_labels] never raises; it forwards the items
    that are not labels and leaves alone the table entries of the names
    it does not meet. *)
Lemma resolve_labels_loop (program : list item) :
  forall (position : Z) (output : list item) (labels : gmap string Z),
  exists position' labels',
    for_each resolve_labels_item (position, output, labels) program =
    Ok (position', (output ++ filter not_Label program)%list, labels') /\
    (forall name, Label name ∉ program -> labels' !! name = labels !! name).
Proof.
  induction program as [|it program IH]; intros position output labels.
  - exists position, labels. cbn [for_each]. rewrite filter_nil, app_nil_r.
    split; [reflexivity|]. intros name _. reflexivity.
  - cbn [for_each]. unfold mbind, res_bind.
    destruct (is_Label it) eqn:Hit.
    + destruct it; try discriminate. cbn [resolve_labels_item].
      destruct (IH position output (<[name := position]> labels))
        as (position' & labels' & Hloop & Hother).
      exists position', labels'. split.
      * rewrite Hloop. rewrite filter_cons_False; [reflexivity|].
        unfold not_Label. cbn. auto.
      * intros name' Hnot. apply not_elem_of_cons in Hnot as [Hne Hnot].
        rewrite Hother by assumption.
        apply lookup_insert_ne. congruence.
    + destruct (IH (position + len_item it) (output ++ [it])%list labels)
        as (position' & labels' & Hloop & Hother).
      exists position', labels'. split.
      * replace (resolve_labels_item (position, output, labels) it)
          with (Ok (A := Z * list item * gmap string Z)
                  (position + len_item it, (output ++ [it])%list, labels))
          by (destruct it; try discriminate; reflexivity).
        rewrite Hloop. rewrite filter_cons_True by (unfold not_Label; now rewrite Hit).
        now rewrite <- app_assoc.
      * intros name' Hnot. apply not_elem_of_cons in Hnot as [_ Hnot].
        now apply Hother.
Qed.

(** C4, as the pass is written: [resolve_labels] never raises.  Its
    output is the program without its [Label] items, the others kept in
    order; a name that is not declared is not in the table; and a
    declared name is bound to the position the loop has reached at its
    last declaration, so that a later declaration replaces an earlier
    one. *)
Theorem resolve_labels_spec (program : list item) :
  exists labels,
    resolve_labels program = Ok (filter not_Label program, labels) /\
    Forall (fun it => is_Label it = false) (filter not_Label program) /\
    (forall name, Label name ∉ program -> labels !! name = None) /\
    (forall pre name post,
       program = (pre ++ Label name :: post)%list -> Label name ∉ post ->
       exists position output labels_pre,
         for_each resolve_labels_item (0, [], ∅) pre =
         Ok (position, output, labels_pre) /\
         labels !! name = Some position).
Proof.
  destruct (resolve_labels_loop program 0 [] ∅)
    as (position' & labels & Hloop & Hother).
  exists labels. unfold resolve_labels. rewrite Hloop.
  split; [reflexivity|]. split; [|split].
  - apply Forall_forall. intros it Hin.
    apply list_elem_of_filter in Hin as [Hnot _].
    unfold not_Label in Hnot. now destruct (is_Label it).
  - intros name Hnot. now rewrite Hother.
  - intros pre name post -> Hlast.
    rewrite for_each_app in Hloop.
    destruct (resolve_labels_loop pre 0 [] ∅)
      as (position & labels_pre & Hpre & _).
    rewrite Hpre in Hloop. unfold mbind at 1, res_bind at 1 in Hloop.
    cbn [for_each] in Hloop. unfold mbind, res_bind in Hloop.
    cbn [resolve_labels_item] in Hloop.
    destruct (resolve_labels_loop post position
                ([] ++ filter not_Label pre)%list
                (<[name := position]> labels_pre))
      as (position'' & labels'' & Hpost & Hkeep).
    rewrite Hpost in Hloop. inversion Hloop; subst.
    exists position, ([] ++ filter not_Label pre)%list, labels_pre.
    split; [exact Hpre|].
    rewrite Hkeep by assumption. apply lookup_insert_eq.
Qed.

(** A program that declares a name twice goes through [resolve_labels]
    without an error, and the second position is the one kept. *)
Lemma resolve_labels_duplicate :
  resolve_labels
    [Label "a"; RTypeInstruction "add" (RegStr "x1") (RegStr "x2") (RegStr "x3");
     Label "a"] =
  Ok ([RTypeInstruction "add" (RegStr "x1") (RegStr "x2") (RegStr "x3")],
      {["a" := 4]}).
Proof. vm_compute. reflexivity. Qed.

(** [resolve_immediate] returns only on a plain integer, and then
    returns the item as it is: every other branch ends in an attribute
    access or assignment that a named tuple refuses. *)
Lemma resolve_immediate_ok (labels : gmap string Z) (position : Z)
  (it it' : item) (imm : immediate) :
  resolve_immediate labels position it imm = Ok it' ->
  it' = it /\ exists n, imm = Int n.
Proof.
  destruct imm as [n|label value|label|value|value];
    cbn [resolve_immediate]; unfold mbind, res_bind, getitem.
  - intros H. inversion H. eauto.
  - destruct (labels !! label); discriminate.
  - destruct (labels !! label); discriminate.
  - discriminate.
  - discriminate.
Qed.

Lemma for_each_cons {S A : Type} (body : S -> A -> res S) (st : S)
  (x : A) (l : list A) :
  for_each body st (x :: l) =
  match body st x with
  | Ok st' => for_each body st' l
  | Err e => Err e
  end.
Proof. reflexivity. Qed.

Lemma resolve_immediates_item_ok (labels : gmap string Z) (position : Z)
  (output : list item) (it : item) (st : Z * list item) :
  resolve_immediates_item labels (position, output) it = Ok st ->
  st = (position + len_item it, (output ++ [it])%list) /\ plain_imm it.
Proof.
  unfold resolve_immediates_item, plain_imm, mbind, res_bind.
  destruct (item_imm it) as [imm|].
  - destruct (resolve_immediate labels position it imm) as [it'|e] eqn:Hres;
      [|discriminate].
    apply resolve_immediate_ok in Hres as [-> [n ->]].
    intros H. inversion H. auto.
  - intros H. inversion H. auto.
Qed.

Lemma resolve_immediates_loop (labels : gmap string Z) (program : list item) :
  forall (position : Z) (output : list item) (st : Z * list item),
  for_each (resolve_immediates_item labels) (position, output) program = Ok st ->
  snd st = (output ++ program)%list /\ Forall plain_imm program.
Proof.
  induction program as [|it program IH]; intros position output st.
  - cbn [for_each]. intros H. inversion H. cbn. rewrite app_nil_r. auto.
  - rewrite for_each_cons.
    destruct (resolve_immediates_item labels (position, output) it)
      as [st'|e] eqn:Hstep; [|discriminate].
    apply resolve_immediates_item_ok in Hstep as [-> Hplain].
    intros H. apply IH in H as [Hout Hrest]. split.
    + now rewrite Hout, <- app_assoc.
    + now constructor.
Qed.

(** The pass returns only on a program without symbolic immediates, and
    returns it unchanged. *)
Lemma resolve_immediates_ok (program output : list item)
  (labels : gmap string Z) :
  resolve_immediates program labels = Ok output ->
  output = program /\ Forall plain_imm program.
Proof.
  unfold resolve_immediates. unfold mbind, res_bind.
  destruct (for_each _ _ _) as [[position out]|e] eqn:Hloop; [|discriminate].
  intros H. inversion H; subst.
  apply resolve_immediates_loop in Hloop as [Hout Hplain].
  cbn in Hout. auto.
Qed.

(** C3, at the inputs of the claim: [loop: jal loop] after label
    resolution, [Position(label, 4)] with the label at 100, the same
    behind a [Hi], and a label that is not in the table.  The first
    three end in [AttributeError] instead of the immediates 0, 104 and
    [Hi(104)]; the last one raises the [KeyError] of the table lookup. *)
Theorem resolve_immediates_raises :
  resolve_immediates [JTypeInstruction "jal" (RegStr "x0") (Offset "loop")]
    {["loop" := 0]} = Err AttributeError /\
  resolve_immediates
    [ITypeInstruction "addi" (RegStr "a0") (RegStr "zero") (Position "label" 4)]
    {["label" := 100]} = Err AttributeError /\
  resolve_immediates [UTypeInstruction "lui" (RegStr "a0") (Hi (Position "label" 4))]
    {["label" := 100]} = Err AttributeError /\
  resolve_immediates [JTypeInstruction "jal" (RegStr "x0") (Offset "nowhere")]
    ∅ = Err (KeyError "nowhere").
Proof. repeat split; vm_compute; reflexivity. Qed.

(** On a program without labels [resolve_aligns] is the pass the
    specification words; the two differ on labels only. *)
Lemma resolve_aligns_item_no_label (calcsize : string -> res Z)
  (st : Z * list item) (it : item) :
  is_Label it = false ->
  resolve_aligns_item calcsize st it = spec_aligns_item calcsize st it.
Proof.
  destruct st as [position output].
  destruct it; intros Hit; try discriminate; reflexivity.
Qed.

Lemma resolve_aligns_without_labels (calcsize : string -> res Z)
  (program : list item) :
  Forall (fun it => is_Label it = false) program ->
  resolve_aligns calcsize program = spec_aligns calcsize program.
Proof.
  intros Hnone. unfold resolve_aligns, spec_aligns. f_equal.
  generalize (0, @nil item). induction Hnone as [|it program Hit _ IH];
    intros st; [reflexivity|].
  rewrite !for_each_cons, resolve_aligns_item_no_label by assumption.
  destruct (spec_aligns_item calcsize st it); [apply IH | reflexivity].
Qed.

Lemma resolve_aligns_item_label (calcsize : string -> res Z)
  (position : Z) (output : list item) (name : string) :
  resolve_aligns_item calcsize (position, output) (Label name) =
  Ok (position + 4, (output ++ [Label name])%list) /\
  spec_aligns_item calcsize (position, output) (Label name) =
  Ok (position + 0, (output ++ [Label name])%list).
Proof. split; reflexivity. Qed.

(** C5, at a program with a label before an alignment: the label
    advances the position by 4, so that after one byte and a label
    [Align(8)] pads with 3 bytes.  The pass of the specification, where
    a label has length 0, pads with 7 bytes there, which is also what
    [resolve_aligns] does once the label is taken out. *)
Theorem resolve_aligns_label_advances (calcsize : string -> res Z) :
  resolve_aligns calcsize [Blob [x01]; Label "a"; Align 8] =
  Ok [Blob [x01]; Label "a"; Blob [x00; x00; x00]] /\
  spec_aligns calcsize [Blob [x01]; Label "a"; Align 8] =
  Ok [Blob [x01]; Label "a"; Blob [x00; x00; x00; x00; x00; x00; x00]] /\
  resolve_aligns calcsize [Blob [x01]; Align 8] =
  Ok [Blob [x01]; Blob [x00; x00; x00; x00; x00; x00; x00]].
Proof. repeat split; vm_compute; reflexivity. Qed.

(** C1: the passes in sequence on [add x1, x2, x3] give the empty byte
    string: the line is lexed into its four tokens, the program builder
    recognises the R-type mnemonic and adds nothing to the program, and
    the later passes have nothing to work on.  The encoder [ADD] itself,
    on the three registers, gives the bytes [B3 00 31 00]. *)
Theorem assemble_text_add (py_int : string -> option Z) (pyobj : Type)
  (py_eval : string -> res pyobj) (calcsize : string -> res Z) :
  lex_assembly "add x1, x2, x3" = [["add"; "x1"; "x2"; "x3"]] /\
  parse_assembly py_int pyobj py_eval [["add"; "x1"; "x2"; "x3"]] = Ok [] /\
  assemble_text py_int pyobj py_eval calcsize "add x1, x2, x3" = Ok [] /\
  ADD py_int (RegStr "x1") (RegStr "x2") (RegStr "x3") = Ok [xb3; x00; x31; x00].
Proof. repeat split; vm_compute; reflexivity. Qed.

(** ** The properties at concrete inputs *)

Lemma relocate_hi_lo_roundtrip_witness :
  exists hi lo,
    relocate_hi 0x12345FFF = Ok hi /\ relocate_lo 0x12345FFF = Ok lo /\
    (Z.shiftl hi 12 + lo) mod 2 ^ 32 = 0x12345FFF.
Proof.
  destruct (relocate_hi_lo_roundtrip 0x12345FFF)
    as (hi & lo & Hhi & Hlo & _ & _ & Hsum).
  exists hi, lo. split; [exact Hhi|]. split; [exact Hlo|]. exact Hsum.
Defined.

Lemma resolve_register_spec_witness :
  resolve_register int_of_str (RegStr "a0") = Ok 10 /\
  resolve_register int_of_str (RegStr "7") = Ok 7 /\
  resolve_register int_of_str (RegStr "seven") =
    Err (ValueError RegisterNotNumber) /\
  resolve_register int_of_str (RegStr "32") =
    Err (ValueError RegisterOutOfRange).
Proof.
  split; [|split; [|split]].
  - destruct (resolve_register_spec int_of_str "a0") as (H & _).
    apply (H 10). vm_compute. reflexivity.
  - destruct (resolve_register_spec int_of_str "7") as (_ & H & _).
    apply (H 7); [vm_compute; reflexivity | vm_compute; reflexivity | lia].
  - destruct (resolve_register_spec int_of_str "seven") as (_ & _ & H & _).
    apply H; vm_compute; reflexivity.
  - destruct (resolve_register_spec int_of_str "32") as (_ & _ & _ & H & _).
    apply (H 32); [vm_compute; reflexivity | vm_compute; reflexivity | lia].
Defined.

Lemma i_type_immediate_witness :
  (exists bs, ADDI int_of_str (RegStr "x1") (RegStr "zero") (-1) = Ok bs /\
              bits_of (le_word bs) 20 12 = 0xfff) /\
  is_ok (ADDI int_of_str (RegStr "x1") (RegStr "zero") 0x7ff) = true /\
  ADDI int_of_str (RegStr "x1") (RegStr "zero") 0x800 =
    Err (ValueError Imm12Range).
Proof.
  split; [|split].
  - destruct (i_type_immediate int_of_str (RegStr "x1") (RegStr "zero")
                1 0 (-1) 0x13 0) as (_ & _ & H);
      [vm_compute; reflexivity | vm_compute; reflexivity | lia | lia |].
    destruct H as (bs & Hbs & _ & _ & Hf & _); [lia|].
    exists bs. split; [exact Hbs | exact Hf].
  - destruct (i_type_immediate int_of_str (RegStr "x1") (RegStr "zero")
                1 0 0x7ff 0x13 0) as (H & _);
      [vm_compute; reflexivity | vm_compute; reflexivity | lia | lia |].
    apply H. lia.
  - destruct (i_type_immediate int_of_str (RegStr "x1") (RegStr "zero")
                1 0 0x800 0x13 0) as (_ & H & _);
      [vm_compute; reflexivity | vm_compute; reflexivity | lia | lia |].
    apply H. lia.
Defined.

Lemma b_type_immediate_witness :
  (exists bs, BEQ int_of_str (RegStr "a0") (RegStr "a1") 4094 = Ok bs /\
              bits_of (le_word bs) 8 4 = bits_of 2047 0 4 /\
              bits_of (le_word bs) 31 1 = 0) /\
  BEQ int_of_str (RegStr "a0") (RegStr "a1") 4096 =
    Err (ValueError Imm13Range) /\
  BEQ int_of_str (RegStr "a0") (RegStr "a1") 3 =
    Err (ValueError Imm13Parity).
Proof.
  split; [|split].
  - destruct (b_type_immediate int_of_str (RegStr "a0") (RegStr "a1")
                10 11 4094 0x63 0) as (_ & _ & _ & H);
      [vm_compute; reflexivity | vm_compute; reflexivity | lia | lia |].
    destruct H as (bs & Hbs & _ & H4 & _ & _ & H12);
      [lia | reflexivity |].
    exists bs. split; [exact Hbs|]. split; [exact H4 | exact H12].
  - destruct (b_type_immediate int_of_str (RegStr "a0") (RegStr "a1")
                10 11 4096 0x63 0) as (_ & H & _);
      [vm_compute; reflexivity | vm_compute; reflexivity | lia | lia |].
    apply H. lia.
  - destruct (b_type_immediate int_of_str (RegStr "a0") (RegStr "a1")
                10 11 3 0x63 0) as (_ & _ & H & _);
      [vm_compute; reflexivity | vm_compute; reflexivity | lia | lia |].
    apply H; [lia | reflexivity].
Defined.

Lemma parity_check_rejects_odd_witness :
  BNE int_of_str (RegStr "t0") (RegStr "t1") (-3) =
    Err (ValueError Imm13Parity) /\
  JAL int_of_str (RegStr "ra") (-3) = Err (ValueError Imm21Parity).
Proof.
  destruct (parity_check_rejects_odd int_of_str
              (RegStr "t0") (RegStr "t1") (RegStr "ra") 5 6 1 (-3) 0x63 1)
    as [Hb _];
    [vm_compute; reflexivity | vm_compute; reflexivity
    | vm_compute; reflexivity | reflexivity |].
  destruct (parity_check_rejects_odd int_of_str
              (RegStr "t0") (RegStr "t1") (RegStr "ra") 5 6 1 (-3) 0x6f 0)
    as [_ Hj];
    [vm_compute; reflexivity | vm_compute; reflexivity
    | vm_compute; reflexivity | reflexivity |].
  split; [apply Hb; lia | apply Hj; lia].
Defined.

Lemma relocation_in_range_witness :
  exists hi lo,
    relocate_hi (-1) = Ok hi /\ relocate_lo (-1) = Ok lo /\
    -524288 <= hi <= 524287 /\ -2048 <= lo <= 2047 /\
    LUI int_of_str (RegStr "a0") hi <> Err (ValueError Imm20Range) /\
    ADDI int_of_str (RegStr "a0") (RegStr "a0") lo <>
      Err (ValueError Imm12Range).
Proof.
  destruct (relocation_in_range int_of_str (-1))
    as (hi & lo & Hhi & Hlo & Rhi & Rlo & Hu & Hi & _).
  exists hi, lo.
  split; [exact Hhi|]. split; [exact Hlo|]. split; [exact Rhi|].
  split; [exact Rlo|]. split; [apply Hu | apply Hi].
Defined.

Lemma resolve_labels_spec_witness :
  exists labels,
    resolve_labels
      [Label "a"; RTypeInstruction "add" (RegStr "x1") (RegStr "x2") (RegStr "x3");
       Label "a"] =
    Ok ([RTypeInstruction "add" (RegStr "x1") (RegStr "x2") (RegStr "x3")],
        labels) /\
    labels !! "a" = Some 4 /\ labels !! "b" = None.
Proof.
  destruct (resolve_labels_spec
              [Label "a";
               RTypeInstruction "add" (RegStr "x1") (RegStr "x2") (RegStr "x3");
               Label "a"])
    as (labels & Hres & _ & Hnone & Hlast).
  exists labels. split; [exact Hres|]. split.
  - destruct (Hlast
                [Label "a";
                 RTypeInstruction "add" (RegStr "x1") (RegStr "x2") (RegStr "x3")]
                "a" [] eq_refl)
      as (position & output & labels_pre & Hpre & Hlook).
    + apply not_elem_of_nil.
    + vm_compute in Hpre. inversion Hpre; subst. exact Hlook.
  - apply Hnone. intros Hin.
    repeat (apply elem_of_cons in Hin as [Hin|Hin]; [discriminate|]).
    now apply elem_of_nil in Hin.
Defined.

(** ** Further runs of the model *)

Example lex_two_lines :
  lex_assembly ("loop:  # spin" +:+ String (chr 10) "  jal zero, offset(loop)") =
  [["loop:"]; ["jal"; "zero"; "offset"; "loop"]].
Proof. vm_compute. reflexivity. Qed.

Example lex_blank_and_separators :
  lex_assembly ("lw  t0, 4(sp)" +:+ String (chr 13) (String (chr 10) ", ")) =
  [["lw"; "t0"; "4"; "sp"]; []].
Proof. vm_compute. reflexivity. Qed.

Example parse_label_blob (py_int : string -> option Z) (pyobj : Type)
  (py_eval : string -> res pyobj) :
  parse_assembly py_int pyobj py_eval [["a:"]; ["blob"; "hi"]; ["ADD"]] =
  Ok [Label "a"; Blob [x68; x69]].
Proof. vm_compute. reflexivity. Qed.

Example parse_jal_rejected (py_int : string -> option Z) (pyobj : Type)
  (py_eval : string -> res pyobj) :
  parse_assembly py_int pyobj py_eval [["loop:"]; ["jal"; "loop"]] =
  Err (SystemExit "invalid item: jal loop").
Proof. vm_compute. reflexivity. Qed.

Example relocate_hi_0x12345678 : relocate_hi 0x12345678 = Ok 0x12345.
Proof. reflexivity. Qed.

Example relocate_lo_0x12345678 : relocate_lo 0x12345678 = Ok 0x678.
Proof. reflexivity. Qed.

Example relocate_hi_bit11 : relocate_hi 0x12345FFF = Ok 0x12346.
Proof. reflexivity. Qed.

Example relocate_lo_bit11 : relocate_lo 0x12345FFF = Ok (-1).
Proof. reflexivity. Qed.

Example addi_minus_one :
  ADDI int_of_str (RegStr "x1") (RegStr "x0") (-1) = Ok [x93; x00; xf0; xff].
Proof. vm_compute. reflexivity. Qed.

Example int_of_str_runs :
  int_of_str " 31 " = Some 31 /\ int_of_str "-1_0" = Some (-10) /\
  int_of_str "0x10" = None /\ int_of_str "" = None /\ int_of_str "1__0" = None.
Proof. vm_compute. repeat split. Qed.

(** * Further properties of the module *)

(** ** Encoders: layouts and round trips *)

Section EncoderLayouts.

Variable py_int : string -> option Z.

Lemma r_type_word (rd rs1 rs2 : reg_operand) (a b c opcode funct3 funct7 : Z) :
  resolve_register py_int rd = Ok a ->
  resolve_register py_int rs1 = Ok b ->
  resolve_register py_int rs2 = Ok c ->
  0 <= opcode < 2 ^ 7 -> 0 <= funct3 < 2 ^ 3 ->
  r_type py_int rd rs1 rs2 opcode funct3 funct7 =
  pack_I (opcode + a * 2 ^ 7 + funct3 * 2 ^ 12 + b * 2 ^ 15 + c * 2 ^ 20
          + funct7 * 2 ^ 25).
Proof.
  intros Hrd Hrs1 Hrs2 Hop Hf3.
  apply resolve_register_range in Hrd as Ha.
  apply resolve_register_range in Hrs1 as Hb.
  apply resolve_register_range in Hrs2 as Hc.
  unfold r_type. rewrite Hrd, Hrs1, Hrs2. unfold mbind, res_bind.
  f_equal. rewrite Z.lor_0_l.
  rewrite (lor_shiftl_add opcode) by lia.
  rewrite (lor_shiftl_add (opcode + _)) by lia.
  rewrite (lor_shiftl_add (opcode + _ + _)) by lia.
  rewrite (lor_shiftl_add (opcode + _ + _ + _)) by lia.
  rewrite (lor_shiftl_add (opcode + _ + _ + _ + _)) by lia.
  reflexivity.
Qed.

(** X1: with registers that resolve and an opcode and funct3 that fit
    their fields, [r_type] returns exactly when funct7 fits its 7 bits
    (otherwise [struct.pack] refuses the word), and the four bytes hold
    opcode, rd, funct3, rs1, rs2 and funct7 in their fields: the
    operands are read back from the word. *)
Theorem r_type_layout (rd rs1 rs2 : reg_operand) (a b c opcode funct3 funct7 : Z) :
  resolve_register py_int rd = Ok a ->
  resolve_register py_int rs1 = Ok b ->
  resolve_register py_int rs2 = Ok c ->
  0 <= opcode < 2 ^ 7 -> 0 <= funct3 < 2 ^ 3 ->
  (~ 0 <= funct7 < 2 ^ 7 ->
   r_type py_int rd rs1 rs2 opcode funct3 funct7 = Err StructError) /\
  (0 <= funct7 < 2 ^ 7 ->
   exists bs,
     r_type py_int rd rs1 rs2 opcode funct3 funct7 = Ok bs /\
     length bs = 4%nat /\
     bits_of (le_word bs) 0 7 = opcode /\ bits_of (le_word bs) 7 5 = a /\
     bits_of (le_word bs) 12 3 = funct3 /\ bits_of (le_word bs) 15 5 = b /\
     bits_of (le_word bs) 20 5 = c /\ bits_of (le_word bs) 25 7 = funct7).
Proof.
  intros Hrd Hrs1 Hrs2 Hop Hf3.
  apply resolve_register_range in Hrd as Ha.
  apply resolve_register_range in Hrs1 as Hb.
  apply resolve_register_range in Hrs2 as Hc.
  rewrite (r_type_word rd rs1 rs2 a b c) by assumption.
  split.
  - intros Hf7. apply pack_I_error. lia.
  - intros Hf7.
    destruct (pack_I_word (opcode + a * 2 ^ 7 + funct3 * 2 ^ 12 + b * 2 ^ 15
                           + c * 2 ^ 20 + funct7 * 2 ^ 25))
      as (bs & Hbs & Hlen & Hw); [lia|].
    exists bs. rewrite Hw. unfold bits_of.
    repeat split; try assumption; Z.to_euclidean_division_equations; lia.
Qed.

Lemma signed_of_mod (w x : Z) :
  1 <= w -> - 2 ^ (w - 1) <= x < 2 ^ (w - 1) -> signed w (x mod 2 ^ w) = x.
Proof.
  intros Hw Hx. pose proof (pow2_pred w Hw) as Hp.
  assert (Hpos : 0 < 2 ^ (w - 1)) by (apply Z.pow_pos_nonneg; lia).
  unfold signed. rewrite Hp in *. set (p := 2 ^ (w - 1)) in *. clearbody p.
  destruct (Z.le_gt_cases 0 x).
  - rewrite Z.mod_small by lia. destruct (Z.ltb_spec x p); lia.
  - assert (Hm : x mod (2 * p) = x + 2 * p).
    { symmetry. apply Z.mod_unique with (q := -1); lia. }
    rewrite Hm. destruct (Z.ltb_spec (x + 2 * p) p); lia.
Qed.

(** X2: the immediate an accepted I-type instruction carries is read
    back from the word as a signed 12-bit field. *)
Theorem i_type_roundtrip (rd rs1 : reg_operand) (a b imm opcode funct3 : Z) :
  resolve_register py_int rd = Ok a ->
  resolve_register py_int rs1 = Ok b ->
  0 <= opcode < 2 ^ 7 -> 0 <= funct3 < 2 ^ 3 ->
  -2048 <= imm <= 2047 ->
  exists bs,
    i_type py_int rd rs1 imm opcode funct3 = Ok bs /\
    decode_i_imm (le_word bs) = imm.
Proof.
  intros Hrd Hrs1 Hop Hf3 Himm.
  apply resolve_register_range in Hrd as Ha.
  apply resolve_register_range in Hrs1 as Hb.
  rewrite (i_type_word py_int rd rs1 a b) by assumption.
  pose proof (Z.mod_pos_bound imm (2 ^ 12) ltac:(lia)) as Hm.
  destruct (pack_I_word (opcode + a * 2 ^ 7 + funct3 * 2 ^ 12 + b * 2 ^ 15
                         + (imm mod 2 ^ 12) * 2 ^ 20))
    as (bs & Hbs & _ & Hw); [lia|].
  exists bs. split; [assumption|].
  unfold decode_i_imm. rewrite Hw.
  rewrite <- (signed_of_mod 12 imm) at 2 by lia. f_equal.
  unfold bits_of. set (f := imm mod 2 ^ 12) in *. clearbody f.
  Z.to_euclidean_division_equations. lia.
Qed.

Lemma s_type_word (rs1 rs2 : reg_operand) (a b imm opcode funct3 : Z) :
  resolve_register py_int rs1 = Ok a ->
  resolve_register py_int rs2 = Ok b ->
  0 <= opcode < 2 ^ 7 -> 0 <= funct3 < 2 ^ 3 ->
  -2048 <= imm <= 2047 ->
  s_type py_int rs1 rs2 imm opcode funct3 =
  pack_I (opcode + bits_of imm 0 5 * 2 ^ 7 + funct3 * 2 ^ 12 + a * 2 ^ 15
          + b * 2 ^ 20 + bits_of imm 5 7 * 2 ^ 25).
Proof.
  intros Hrs1 Hrs2 Hop Hf3 Himm.
  apply resolve_register_range in Hrs1 as Ha.
  apply resolve_register_range in Hrs2 as Hb.
  unfold s_type. rewrite Hrs1, Hrs2. unfold mbind, res_bind.
  destruct (Z.ltb_spec imm (-0x800)), (Z.gtb_spec imm 0x7ff); try lia.
  cbn [orb]. f_equal.
  change 0xfff with (2 ^ 12 - 1). change 0x7f with (2 ^ 7 - 1).
  change 0x1f with (2 ^ 5 - 1).
  rewrite !land_mask, !Z.shiftr_div_pow2, c_uint32_low by lia.
  assert (E11 : (imm mod 2 ^ 12 / 2 ^ 5) mod 2 ^ 7 = bits_of imm 5 7).
  { unfold bits_of. Z.to_euclidean_division_equations. lia. }
  assert (E4 : (imm mod 2 ^ 12) mod 2 ^ 5 = bits_of imm 0 5).
  { unfold bits_of. Z.to_euclidean_division_equations. lia. }
  rewrite E11, E4.
  pose proof (Z.mod_pos_bound (imm / 2 ^ 5) (2 ^ 7) ltac:(lia)) as B11.
  pose proof (Z.mod_pos_bound (imm / 2 ^ 0) (2 ^ 5) ltac:(lia)) as B4.
  fold (bits_of imm 5 7) in B11. fold (bits_of imm 0 5) in B4.
  rewrite Z.lor_0_l.
  rewrite (lor_shiftl_add opcode) by lia.
  rewrite (lor_shiftl_add (opcode + _)) by lia.
  rewrite (lor_shiftl_add (opcode + _ + _)) by lia.
  rewrite (lor_shiftl_add (opcode + _ + _ + _)) by lia.
  rewrite (lor_shiftl_add (opcode + _ + _ + _ + _)) by lia.
  reflexivity.
Qed.

(** X3: with registers that resolve and an opcode and funct3 that fit
    their fields, [s_type] accepts exactly the immediates of
    [-2048, 2047]; the word keeps opcode, funct3, rs1 and rs2 in their
    fields, and the immediate is read back from the two fields it is
    split over (bits 7..11 and 25..31). *)
Theorem s_type_roundtrip (rs1 rs2 : reg_operand) (a b imm opcode funct3 : Z) :
  resolve_register py_int rs1 = Ok a ->
  resolve_register py_int rs2 = Ok b ->
  0 <= opcode < 2 ^ 7 -> 0 <= funct3 < 2 ^ 3 ->
  (~ -2048 <= imm <= 2047 ->
   s_type py_int rs1 rs2 imm opcode funct3 = Err (ValueError Imm12Range)) /\
  (-2048 <= imm <= 2047 ->
   exists bs,
     s_type py_int rs1 rs2 imm opcode funct3 = Ok bs /\
     length bs = 4%nat /\
     bits_of (le_word bs) 0 7 = opcode /\ bits_of (le_word bs) 12 3 = funct3 /\
     bits_of (le_word bs) 15 5 = a /\ bits_of (le_word bs) 20 5 = b /\
     decode_s_imm (le_word bs) = imm).
Proof.
  intros Hrs1 Hrs2 Hop Hf3.
  apply resolve_register_range in Hrs1 as Ha.
  apply resolve_register_range in Hrs2 as Hb.
  split.
  - intros Himm. unfold s_type. rewrite Hrs1, Hrs2. unfold mbind, res_bind.
    destruct (Z.ltb_spec imm (-0x800)), (Z.gtb_spec imm 0x7ff);
      (reflexivity || lia).
  - intros Himm. rewrite (s_type_word rs1 rs2 a b) by assumption.
    assert (Hsplit : bits_of imm 0 5 + 2 ^ 5 * bits_of imm 5 7 = imm mod 2 ^ 12).
    { unfold bits_of. Z.to_euclidean_division_equations. lia. }
    pose proof (Z.mod_pos_bound (imm / 2 ^ 5) (2 ^ 7) ltac:(lia)) as B11.
    pose proof (Z.mod_pos_bound (imm / 2 ^ 0) (2 ^ 5) ltac:(lia)) as B4.
    fold (bits_of imm 5 7) in B11. fold (bits_of imm 0 5) in B4.
    set (lo := bits_of imm 0 5) in *. set (hi := bits_of imm 5 7) in *.
    destruct (pack_I_word (opcode + lo * 2 ^ 7 + funct3 * 2 ^ 12 + a * 2 ^ 15
                           + b * 2 ^ 20 + hi * 2 ^ 25))
      as (bs & Hbs & Hlen & Hw); [lia|].
    exists bs. unfold decode_s_imm. rewrite Hw.
    assert (Hback : signed 12 (lo + 2 ^ 5 * hi) = imm).
    { rewrite Hsplit. apply signed_of_mod; lia. }
    clearbody lo hi. clear Hsplit.
    repeat split; try assumption; try (rewrite <- Hback; f_equal);
      clear Hback; unfold bits_of; Z.to_euclidean_division_equations; lia.
Qed.

(** X4: the immediate an accepted B-type instruction carries is read
    back exactly from the four fields it is scattered over. *)
Theorem b_type_roundtrip (rs1 rs2 : reg_operand) (a b imm opcode funct3 : Z) :
  resolve_register py_int rs1 = Ok a ->
  resolve_register py_int rs2 = Ok b ->
  0 <= opcode < 2 ^ 7 -> 0 <= funct3 < 2 ^ 3 ->
  -4096 <= imm <= 4095 -> Z.even imm = true ->
  exists bs,
    b_type py_int rs1 rs2 imm opcode funct3 = Ok bs /\
    bits_of (le_word bs) 0 7 = opcode /\ bits_of (le_word bs) 12 3 = funct3 /\
    bits_of (le_word bs) 15 5 = a /\ bits_of (le_word bs) 20 5 = b /\
    decode_b_imm (le_word bs) = imm.
Proof.
  intros Hrs1 Hrs2 Hop Hf3 Himm Heven.
  apply resolve_register_range in Hrs1 as Ha.
  apply resolve_register_range in Hrs2 as Hb.
  apply even_mod2 in Heven.
  rewrite (b_type_word py_int rs1 rs2 a b) by assumption.
  assert (Hh : imm = 2 * (imm / 2)).
  { Z.to_euclidean_division_equations. lia. }
  set (h := imm / 2) in *.
  assert (Hrange : - 2 ^ (12 - 1) <= h < 2 ^ (12 - 1)) by lia.
  assert (Hsplit : bits_of h 0 4 + 2 ^ 4 * bits_of h 4 6
                   + 2 ^ 10 * bits_of h 10 1 + 2 ^ 11 * bits_of h 11 1
                   = h mod 2 ^ 12).
  { unfold bits_of. Z.to_euclidean_division_equations. lia. }
  pose proof (Z.mod_pos_bound (h / 2 ^ 11) (2 ^ 1) ltac:(lia)) as B12.
  pose proof (Z.mod_pos_bound (h / 2 ^ 10) (2 ^ 1) ltac:(lia)) as B11.
  pose proof (Z.mod_pos_bound (h / 2 ^ 4) (2 ^ 6) ltac:(lia)) as B10.
  pose proof (Z.mod_pos_bound (h / 2 ^ 0) (2 ^ 4) ltac:(lia)) as B4.
  fold (bits_of h 11 1) in B12. fold (bits_of h 10 1) in B11.
  fold (bits_of h 4 6) in B10. fold (bits_of h 0 4) in B4.
  set (f12 := bits_of h 11 1) in *. set (f11 := bits_of h 10 1) in *.
  set (f10 := bits_of h 4 6) in *. set (f4 := bits_of h 0 4) in *.
  destruct (pack_I_word
              (opcode + f11 * 2 ^ 7 + f4 * 2 ^ 8 + funct3 * 2 ^ 12
               + a * 2 ^ 15 + b * 2 ^ 20 + f10 * 2 ^ 25 + f12 * 2 ^ 31))
    as (bs & Hbs & _ & Hw); [lia|].
  exists bs. unfold decode_b_imm. rewrite Hw.
  assert (Hback : 2 * signed 12 (f4 + 2 ^ 4 * f10 + 2 ^ 10 * f11 + 2 ^ 11 * f12)
                  = imm).
  { rewrite Hsplit, signed_of_mod by lia. lia. }
  clearbody f12 f11 f10 f4. clear Hsplit.
  repeat split; try assumption; try (rewrite <- Hback; do 2 f_equal);
    clear Hback; unfold bits_of; Z.to_euclidean_division_equations; lia.
Qed.

Lemma u_type_word (rd : reg_operand) (a imm opcode : Z) :
  resolve_register py_int rd = Ok a ->
  0 <= opcode < 2 ^ 7 -> -524288 <= imm <= 524287 ->
  u_type py_int rd imm opcode =
  pack_I (opcode + a * 2 ^ 7 + (imm mod 2 ^ 20) * 2 ^ 12).
Proof.
  intros Hrd Hop Himm.
  apply resolve_register_range in Hrd as Ha.
  unfold u_type. rewrite Hrd. unfold mbind, res_bind.
  destruct (Z.ltb_spec imm (-0x80000)), (Z.gtb_spec imm 0x7ffff); try lia.
  cbn [orb]. f_equal.
  change 0xfffff with (2 ^ 20 - 1). rewrite land_mask, c_uint32_low by lia.
  rewrite Z.lor_0_l.
  rewrite (lor_shiftl_add opcode) by lia.
  rewrite (lor_shiftl_add (opcode + _)) by lia.
  reflexivity.
Qed.

(** X5: with a register that resolves and an opcode that fits its
    field, [u_type] accepts exactly the immediates of
    [-524288, 524287]; the word keeps opcode and rd, and the immediate
    is read back from bits 12..31 as a signed 20-bit field. *)
Theorem u_type_roundtrip (rd : reg_operand) (a imm opcode : Z) :
  resolve_register py_int rd = Ok a ->
  0 <= opcode < 2 ^ 7 ->
  (~ -524288 <= imm <= 524287 ->
   u_type py_int rd imm opcode = Err (ValueError Imm20Range)) /\
  (-524288 <= imm <= 524287 ->
   exists bs,
     u_type py_int rd imm opcode = Ok bs /\ length bs = 4%nat /\
     bits_of (le_word bs) 0 7 = opcode /\ bits_of (le_word bs) 7 5 = a /\
     decode_u_imm (le_word bs) = imm).
Proof.
  intros Hrd Hop. apply resolve_register_range in Hrd as Ha.
  split.
  - intros Himm. unfold u_type. rewrite Hrd. unfold mbind, res_bind.
    destruct (Z.ltb_spec imm (-0x80000)), (Z.gtb_spec imm 0x7ffff);
      (reflexivity || lia).
  - intros Himm. rewrite (u_type_word rd a) by assumption.
    pose proof (Z.mod_pos_bound imm (2 ^ 20) ltac:(lia)) as Hm.
    assert (Hback : signed 20 (imm mod 2 ^ 20) = imm)
      by (apply signed_of_mod; lia).
    set (f := imm mod 2 ^ 20) in *. clearbody f.
    destruct (pack_I_word (opcode + a * 2 ^ 7 + f * 2 ^ 12))
      as (bs & Hbs & Hlen & Hw); [lia|].
    exists bs. unfold decode_u_imm. rewrite Hw.
    repeat split; try assumption; try (rewrite <- Hback; f_equal);
      clear Hback; unfold bits_of; Z.to_euclidean_division_equations; lia.
Qed.

Lemma j_type_word (rd : reg_operand) (a imm opcode : Z) :
  resolve_register py_int rd = Ok a ->
  0 <= opcode < 2 ^ 7 ->
  -1048576 <= imm <= 1048575 -> imm mod 2 <> 1 ->
  j_type py_int rd imm opcode =
  pack_I (opcode + a * 2 ^ 7
          + bits_of (imm / 2) 11 8 * 2 ^ 12
          + bits_of (imm / 2) 10 1 * 2 ^ 20
          + bits_of (imm / 2) 0 10 * 2 ^ 21
          + bits_of (imm / 2) 19 1 * 2 ^ 31).
Proof.
  intros Hrd Hop Himm Hpar.
  apply resolve_register_range in Hrd as Ha.
  unfold j_type. rewrite Hrd. unfold mbind, res_bind.
  destruct (Z.ltb_spec imm (-0x100000)), (Z.gtb_spec imm 0x0fffff); try lia.
  cbn [orb]. destruct (Z.eqb_spec (imm mod 2) 1); [contradiction|].
  f_equal.
  change 0xfffff with (2 ^ 20 - 1). change 0x1 with (2 ^ 1 - 1).
  change 0xff with (2 ^ 8 - 1). change 0x3ff with (2 ^ 10 - 1).
  rewrite !land_mask, !Z.shiftr_div_pow2, c_uint32_low by lia.
  set (h := imm / 2).
  assert (E20 : (h mod 2 ^ 20 / 2 ^ 19) mod 2 ^ 1 = bits_of h 19 1).
  { unfold bits_of. Z.to_euclidean_division_equations. lia. }
  assert (E19 : (h mod 2 ^ 20 / 2 ^ 11) mod 2 ^ 8 = bits_of h 11 8).
  { unfold bits_of. Z.to_euclidean_division_equations. lia. }
  assert (E11 : (h mod 2 ^ 20 / 2 ^ 10) mod 2 ^ 1 = bits_of h 10 1).
  { unfold bits_of. Z.to_euclidean_division_equations. lia. }
  assert (E10 : (h mod 2 ^ 20) mod 2 ^ 10 = bits_of h 0 10).
  { unfold bits_of. Z.to_euclidean_division_equations. lia. }
  rewrite E20, E19, E11, E10.
  pose proof (Z.mod_pos_bound (h / 2 ^ 19) (2 ^ 1) ltac:(lia)) as B20.
  pose proof (Z.mod_pos_bound (h / 2 ^ 11) (2 ^ 8) ltac:(lia)) as B19.
  pose proof (Z.mod_pos_bound (h / 2 ^ 10) (2 ^ 1) ltac:(lia)) as B11.
  pose proof (Z.mod_pos_bound (h / 2 ^ 0) (2 ^ 10) ltac:(lia)) as B10.
  fold (bits_of h 19 1) in B20. fold (bits_of h 11 8) in B19.
  fold (bits_of h 10 1) in B11. fold (bits_of h 0 10) in B10.
  rewrite Z.lor_0_l.
  rewrite (lor_shiftl_add opcode) by lia.
  rewrite (lor_shiftl_add (opcode + _)) by lia.
  rewrite (lor_shiftl_add (opcode + _ + _)) by lia.
  rewrite (lor_shiftl_add (opcode + _ + _ + _)) by lia.
  rewrite (lor_shiftl_add (opcode + _ + _ + _ + _)) by lia.
  reflexivity.
Qed.

(** X6: with a register that resolves and an opcode that fits its
    field, [j_type] accepts exactly the even immediates of
    [-1048576, 1048575] (range error outside, parity error on an odd
    one); the word keeps opcode and rd, and the immediate is read back
    exactly from the four fields it is scattered over. *)
Theorem j_type_roundtrip (rd : reg_operand) (a imm opcode : Z) :
  resolve_register py_int rd = Ok a ->
  0 <= opcode < 2 ^ 7 ->
  (~ -1048576 <= imm <= 1048575 ->
   j_type py_int rd imm opcode = Err (ValueError Imm21Range)) /\
  (-1048576 <= imm <= 1048575 -> Z.odd imm = true ->
   j_type py_int rd imm opcode = Err (ValueError Imm21Parity)) /\
  (-1048576 <= imm <= 1048575 -> Z.even imm = true ->
   exists bs,
     j_type py_int rd imm opcode = Ok bs /\ length bs = 4%nat /\
     bits_of (le_word bs) 0 7 = opcode /\ bits_of (le_word bs) 7 5 = a /\
     decode_j_imm (le_word bs) = imm).
Proof.
  intros Hrd Hop. apply resolve_register_range in Hrd as Ha.
  destruct (j_type_checks py_int rd a imm opcode Hrd) as [Hrange Hparity].
  split; [exact Hrange|]. split.
  - intros Himm Hodd. apply Hparity; [assumption|]. now apply odd_mod2.
  - intros Himm Heven. apply even_mod2 in Heven.
    rewrite (j_type_word rd a) by assumption.
    assert (Hh : imm = 2 * (imm / 2)).
    { Z.to_euclidean_division_equations. lia. }
    set (h := imm / 2) in *.
    assert (Hsplit : bits_of h 0 10 + 2 ^ 10 * bits_of h 10 1
                     + 2 ^ 11 * bits_of h 11 8 + 2 ^ 19 * bits_of h 19 1
                     = h mod 2 ^ 20).
    { unfold bits_of. Z.to_euclidean_division_equations. lia. }
    pose proof (Z.mod_pos_bound (h / 2 ^ 19) (2 ^ 1) ltac:(lia)) as B20.
    pose proof (Z.mod_pos_bound (h / 2 ^ 11) (2 ^ 8) ltac:(lia)) as B19.
    pose proof (Z.mod_pos_bound (h / 2 ^ 10) (2 ^ 1) ltac:(lia)) as B11.
    pose proof (Z.mod_pos_bound (h / 2 ^ 0) (2 ^ 10) ltac:(lia)) as B10.
    fold (bits_of h 19 1) in B20. fold (bits_of h 11 8) in B19.
    fold (bits_of h 10 1) in B11. fold (bits_of h 0 10) in B10.
    set (f20 := bits_of h 19 1) in *. set (f19 := bits_of h 11 8) in *.
    set (f11 := bits_of h 10 1) in *. set (f10 := bits_of h 0 10) in *.
    destruct (pack_I_word
                (opcode + a * 2 ^ 7 + f19 * 2 ^ 12 + f11 * 2 ^ 20
                 + f10 * 2 ^ 21 + f20 * 2 ^ 31))
      as (bs & Hbs & Hlen & Hw); [lia|].
    exists bs. unfold decode_j_imm. rewrite Hw.
    assert (Hback : 2 * signed 20 (f10 + 2 ^ 10 * f11 + 2 ^ 11 * f19
                                   + 2 ^ 19 * f20) = imm).
    { rewrite Hsplit, signed_of_mod by lia. lia. }
    clearbody f20 f19 f11 f10. clear Hsplit.
    repeat split; try assumption; try (rewrite <- Hback; do 2 f_equal);
      clear Hback; unfold bits_of; Z.to_euclidean_division_equations; lia.
Qed.

(** X7: whatever the operands, an encoder that returns returns four
    bytes. *)
Theorem encoders_return_four_bytes (bs : list byte) :
  (forall rd rs1 rs2 opcode funct3 funct7,
     r_type py_int rd rs1 rs2 opcode funct3 funct7 = Ok bs -> length bs = 4%nat) /\
  (forall rd rs1 imm opcode funct3,
     i_type py_int rd rs1 imm opcode funct3 = Ok bs -> length bs = 4%nat) /\
  (forall rs1 rs2 imm opcode funct3,
     s_type py_int rs1 rs2 imm opcode funct3 = Ok bs -> length bs = 4%nat) /\
  (forall rs1 rs2 imm opcode funct3,
     b_type py_int rs1 rs2 imm opcode funct3 = Ok bs -> length bs = 4%nat) /\
  (forall rd imm opcode,
     u_type py_int rd imm opcode = Ok bs -> length bs = 4%nat) /\
  (forall rd imm opcode,
     j_type py_int rd imm opcode = Ok bs -> length bs = 4%nat).
Proof.
  assert (Hpack : forall code, pack_I code = Ok bs -> length bs = 4%nat).
  { intros code. unfold pack_I. destruct (_ && _); [|discriminate].
    intros H. inversion H. reflexivity. }
  repeat split; intros.
  - unfold r_type, mbind, res_bind in H.
    repeat (destruct (resolve_register py_int _); [|discriminate]).
    eauto.
  - unfold i_type, mbind, res_bind in H.
    repeat (destruct (resolve_register py_int _); [|discriminate]).
    destruct (_ || _); [discriminate|]. eauto.
  - unfold s_type, mbind, res_bind in H.
    repeat (destruct (resolve_register py_int _); [|discriminate]).
    destruct (_ || _); [discriminate|]. eauto.
  - unfold b_type, mbind, res_bind in H.
    repeat (destruct (resolve_register py_int _); [|discriminate]).
    destruct (_ || _); [discriminate|].
    destruct (_ =? _); [discriminate|]. eauto.
  - unfold u_type, mbind, res_bind in H.
    repeat (destruct (resolve_register py_int _); [|discriminate]).
    destruct (_ || _); [discriminate|]. eauto.
  - unfold j_type, mbind, res_bind in H.
    repeat (destruct (resolve_register py_int _); [|discriminate]).
    destruct (_ || _); [discriminate|].
    destruct (_ =? _); [discriminate|]. eauto.
Qed.

End EncoderLayouts.

(** ** Sign extension and relocation, continued *)



(** X9: the two relocated parts give the value back exactly, as
    integers, precisely for the values of
    [-2^31 - 2048, 2^31 - 2048); for a value that fits 12 signed bits
    the upper part is 0 and the lower part is the value. *)
Theorem relocate_exact (v : Z) :
  exists hi lo,
    relocate_hi v = Ok hi /\ relocate_lo v = Ok lo /\
    (hi * 2 ^ 12 + lo = v <-> - 2 ^ 31 - 2048 <= v < 2 ^ 31 - 2048) /\
    (-2048 <= v <= 2047 -> hi = 0 /\ lo = v).
Proof.
  eexists _, _.
  split; [apply relocate_hi_value|].
  split; [apply relocate_lo_value|].
  pose proof (testbit_11_mod v) as Hbit.
  unfold signed. change (20 - 1) with 19. change (12 - 1) with 11.
  destruct (Z.testbit v 11); cbn [Z.b2z] in Hbit;
    repeat match goal with
           | |- context [?a <? ?b] => destruct (Z.ltb_spec a b)
           end;
    (split; [split; intros|intros; split]);
    Z.to_euclidean_division_equations; lia.
Qed.

(** ** Lexer *)

Lemma string_forall_ext (p q : ascii -> bool) (s : string) :
  (forall c, p c = q c) -> string_forall p s = string_forall q s.
Proof.
  intros Hpq. induction s as [|c s IH]; cbn [string_forall]; [reflexivity|].
  now rewrite Hpq, IH.
Qed.

Lemma string_forall_rev_app (p : ascii -> bool) (s1 s2 : string) :
  string_forall p (String.rev_app s1 s2) =
  string_forall p s1 && string_forall p s2.
Proof.
  revert s2. induction s1 as [|c s1 IH]; intros s2; cbn [String.rev_app string_forall].
  - reflexivity.
  - rewrite IH. cbn [string_forall].
    destruct (p c), (string_forall p s1), (string_forall p s2); reflexivity.
Qed.

Lemma string_forall_rev (p : ascii -> bool) (s : string) :
  string_forall p (String.rev s) = string_forall p s.
Proof.
  unfold String.rev. rewrite string_forall_rev_app. cbn [string_forall].
  apply andb_true_r.
Qed.

Lemma string_forall_lstrip (p : ascii -> bool) (s : string) :
  string_forall p s = true -> string_forall p (lstrip s) = true.
Proof.
  induction s as [|c s IH]; cbn [lstrip string_forall]; [reflexivity|].
  intros H. destruct (is_space c); [|exact H].
  apply IH. now apply andb_true_iff in H.
Qed.

Lemma string_forall_strip (p : ascii -> bool) (s : string) :
  string_forall p s = true -> string_forall p (strip s) = true.
Proof.
  intros H. unfold strip.
  rewrite string_forall_rev. apply string_forall_lstrip.
  rewrite string_forall_rev. now apply string_forall_lstrip.
Qed.

Lemma splitlines_go_chars (p : ascii -> bool) (s : string) :
  forall (after_cr : bool) (cur : string),
  string_forall p cur = true -> string_forall p s = true ->
  Forall (fun line => string_forall p line = true)
    (splitlines_go after_cr cur s).
Proof.
  induction s as [|c s IH]; intros after_cr cur Hcur Hs;
    cbn [splitlines_go].
  - destruct cur; [constructor|].
    constructor; [|constructor]. now rewrite string_forall_rev.
  - cbn [string_forall] in Hs. apply andb_true_iff in Hs as [Hc Hs].
    destruct (after_cr && Ascii.eqb c (chr 10)); [now apply IH|].
    destruct (is_linebreak c).
    + constructor; [now rewrite string_forall_rev | now apply IH].
    + apply IH; [|assumption]. cbn [string_forall]. now rewrite Hc, Hcur.
Qed.

Lemma re_split_go_chars (p : ascii -> bool) (s : string) :
  forall (in_sep : bool) (cur : string),
  string_forall (fun c => p c && negb (is_separator c)) cur = true ->
  string_forall p s = true ->
  Forall (fun tok => string_forall (fun c => p c && negb (is_separator c)) tok = true)
    (re_split_go in_sep cur s).
Proof.
  induction s as [|c s IH]; intros in_sep cur Hcur Hs; cbn [re_split_go].
  - constructor; [|constructor]. now rewrite string_forall_rev.
  - cbn [string_forall] in Hs. apply andb_true_iff in Hs as [Hc Hs].
    destruct (is_separator c) eqn:Hsep.
    + destruct in_sep; [now apply IH|].
      constructor; [now rewrite string_forall_rev | now apply IH].
    + apply IH; [|assumption]. cbn [string_forall].
      now rewrite Hc, Hsep, Hcur.
Qed.

Lemma strip_comments_no_hash (s : string) :
  forall in_comment,
  string_forall (fun c => negb (Ascii.eqb c "#")) (strip_comments in_comment s)
  = true.
Proof.
  induction s as [|c s IH]; intros in_comment; cbn [strip_comments];
    [reflexivity|].
  destruct (Ascii.eqb_spec c (chr 10)) as [->|Hlf].
  - cbn [string_forall]. now rewrite IH.
  - destruct in_comment; [apply IH|].
    destruct (Ascii.eqb c "#") eqn:Hhash; [apply IH|].
    cbn [string_forall]. now rewrite Hhash, IH.
Qed.

(** X10: every token [lex_assembly] returns is non-empty and contains
    no white space, comma, parenthesis or [#]. *)
Theorem lex_assembly_tokens (assembly : string) (line : list string)
  (tok : string) :
  In line (lex_assembly assembly) -> In tok line ->
  tok <> "" /\ string_forall token_char tok = true.
Proof.
  unfold lex_assembly. intros Hline Htok.
  apply in_map_iff in Hline as (raw & <- & Hraw).
  apply list_elem_of_In, list_elem_of_filter in Htok as [Hne Htok].
  split; [now destruct tok|].
  apply in_map_iff in Hraw as (stripped & <- & Hstripped).
  apply list_elem_of_In, list_elem_of_filter in Hstripped as [_ Hstripped].
  apply list_elem_of_In, in_map_iff in Hstripped as (l & <- & Hl).
  pose proof (splitlines_go_chars _ _ false ""
                eq_refl (strip_comments_no_hash assembly false)) as Hlines.
  rewrite Forall_forall in Hlines.
  apply list_elem_of_In, Hlines in Hl.
  apply (string_forall_strip _ l) in Hl.
  pose proof (re_split_go_chars _ _ false "" eq_refl Hl) as Htoks.
  rewrite Forall_forall in Htoks. apply Htoks in Htok.
  erewrite string_forall_ext; [exact Htok|].
  intros c. unfold token_char. apply andb_comm.
Qed.

Lemma append_cons (c : ascii) (s1 s2 : string) :
  (String c s1 +:+ s2) = String c (s1 +:+ s2).
Proof. reflexivity. Qed.

Lemma strip_comments_in_comment (c t : string) :
  string_forall not_LF c = true ->
  strip_comments true (c +:+ t) = strip_comments true t.
Proof.
  induction c as [|ch c IH]; cbn [string_forall]; [reflexivity|].
  intros H. apply andb_true_iff in H as [Hch Hc].
  rewrite append_cons. cbn [strip_comments].
  unfold not_LF in Hch. destruct (Ascii.eqb ch (chr 10)); [discriminate|].
  now apply IH.
Qed.

Lemma strip_comments_at_line_end (t : string) (b : bool) :
  ends_comment t = true -> strip_comments true t = strip_comments b t.
Proof.
  destruct t as [|ch t]; cbn [ends_comment strip_comments]; [reflexivity|].
  intros ->. reflexivity.
Qed.

Lemma strip_comments_drop (s c t : string) :
  string_forall not_LF c = true -> ends_comment t = true ->
  forall b,
  strip_comments b (s +:+ String "#" (c +:+ t)) = strip_comments b (s +:+ t).
Proof.
  intros Hc Ht. induction s as [|ch s IH]; intros b.
  - change ("" +:+ String "#" (c +:+ t)) with (String "#" (c +:+ t)).
    change ("" +:+ t) with t.
    cbn [strip_comments].
    change (Ascii.eqb "#" (chr 10)) with false. cbn match.
    rewrite Ascii.eqb_refl.
    destruct b; rewrite strip_comments_in_comment by assumption;
      now apply strip_comments_at_line_end.
  - rewrite !append_cons. cbn [strip_comments].
    destruct (Ascii.eqb ch (chr 10)); [now rewrite IH|].
    destruct b; [apply IH|].
    destruct (Ascii.eqb ch "#"); [apply IH | now rewrite IH].
Qed.

(** X11: a comment changes nothing: a [#] with the text up to the end
    of its line can be taken out of the input, wherever the line is,
    without a change in what [lex_assembly] returns. *)
Theorem lex_assembly_comment (s c t : string) :
  string_forall not_LF c = true -> ends_comment t = true ->
  lex_assembly (s +:+ String "#" (c +:+ t)) = lex_assembly (s +:+ t).
Proof.
  intros Hc Ht. unfold lex_assembly.
  now rewrite strip_comments_drop.
Qed.

(** ** Program builder *)

Section BuilderProperties.

Variable py_int : string -> option Z.
Variable pyobj : Type.
Variable py_eval : string -> res pyobj.




End BuilderProperties.

(** ** Pass 1, continued *)


Lemma resolve_aligns_item_shape (calcsize : string -> res Z)
  (position position' : Z) (output output' : list item) (it : item) :
  resolve_aligns_item calcsize (position, output) it = Ok (position', output') ->
  match it with
  | Align _ =>
      output' = output \/
      exists k, output' = (output ++ [Blob (repeat x00 k)])%list
  | _ => output' = (output ++ [it])%list
  end.
Proof.
  destruct it; cbn [resolve_aligns_item]; unfold mbind, res_bind;
    try (intros H; inversion H; reflexivity).
  - destruct (alignment =? 0); [discriminate|].
    destruct (_ =? alignment); intros H; inversion H; eauto.
  - destruct (calcsize fmt); [|discriminate].
    intros H; inversion H; reflexivity.
Qed.

Lemma resolve_aligns_loop (calcsize : string -> res Z) (program : list item) :
  forall (position position' : Z) (output output' : list item),
  for_each (resolve_aligns_item calcsize) (position, output) program
  = Ok (position', output') ->
  exists added,
    output' = (output ++ added)%list /\ aligns_resolved program added.
Proof.
  induction program as [|it program IH];
    intros position position' output output'.
  - cbn [for_each]. intros H. inversion H. exists [].
    rewrite app_nil_r. split; [reflexivity | constructor].
  - rewrite for_each_cons.
    destruct (resolve_aligns_item calcsize (position, output) it)
      as [[position1 output1]|e] eqn:Hstep; [|discriminate].
    intros Hrest. apply IH in Hrest as (added & -> & Hres).
    apply resolve_aligns_item_shape in Hstep.
    destruct it;
      try (subst output1; eexists; rewrite <- app_assoc;
           split; [reflexivity | now constructor]).
    destruct Hstep as [-> | [k ->]].
    + exists added. split; [reflexivity | now constructor].
    + eexists. rewrite <- app_assoc. split; [reflexivity | now constructor].
Qed.

Lemma aligns_resolved_no_Align (program output : list item) :
  aligns_resolved program output ->
  Forall (fun it => is_Align it = false) output.
Proof.
  induction 1; try assumption; constructor; auto.
Qed.

(** X14: a program [resolve_aligns] returns has no [Align] left; it is
    the input with each [Align] dropped or replaced by a blob of zero
    bytes and every other item kept in place. *)
Theorem resolve_aligns_output (calcsize : string -> res Z)
  (program output : list item) :
  resolve_aligns calcsize program = Ok output ->
  aligns_resolved program output /\
  Forall (fun it => is_Align it = false) output.
Proof.
  unfold resolve_aligns, mbind, res_bind.
  destruct (for_each _ _ _) as [[position output']|e] eqn:Hloop;
    [|discriminate].
  intros H. inversion H; subst.
  apply resolve_aligns_loop in Hloop as (added & -> & Hres).
  split; [exact Hres|]. now apply aligns_resolved_no_Align with program.
Qed.


(** ** Pass 2, continued *)

Lemma resolve_labels_position (program : list item) :
  forall (position : Z) (output : list item) (labels : gmap string Z),
  exists output' labels',
    for_each resolve_labels_item (position, output, labels) program =
    Ok (position + fields_before program, output', labels').
Proof.
  induction program as [|it program IH]; intros position output labels.
  - exists output, labels. cbn [for_each fields_before].
    now rewrite Z.add_0_r.
  - rewrite for_each_cons. cbn [fields_before].
    destruct it; cbn [resolve_labels_item is_Label len_item];
      match goal with
      | |- context [for_each _ (?p, ?o, ?l) _] =>
          destruct (IH p o l) as (output' & labels' & ->)
      end;
      exists output', labels'; do 2 f_equal; f_equal; lia.
Qed.

(** X16: the position [resolve_labels] binds a label to is the sum of
    [len(item)], the number of fields of the tuple, over the items
    before its last declaration that are not labels: 4 for an R-, I-,
    S- or B-type instruction, 3 for a U- or J-type one, 2 for a pack
    and 1 for a blob, whatever the number of bytes they stand for. *)
Theorem resolve_labels_counts_fields (pre post : list item) (name : string) :
  ~ In (Label name) post ->
  exists output labels,
    resolve_labels (pre ++ Label name :: post) = Ok (output, labels) /\
    labels !! name = Some (fields_before pre).
Proof.
  intros Hlast. unfold resolve_labels. rewrite for_each_app.
  destruct (resolve_labels_position pre 0 [] ∅) as (output1 & labels1 & ->).
  unfold mbind at 2, res_bind at 2. rewrite for_each_cons.
  cbn [resolve_labels_item].
  destruct (resolve_labels_loop post (0 + fields_before pre) output1
              (<[name := 0 + fields_before pre]> labels1))
    as (position2 & labels2 & -> & Hkeep).
  unfold mbind, res_bind. eexists _, labels2. split; [reflexivity|].
  rewrite Hkeep by (now rewrite list_elem_of_In).
  rewrite Z.add_0_l. apply lookup_insert_eq.
Qed.

(** ** Pass 3, continued *)

Lemma resolve_immediate_symbolic (labels : gmap string Z) (position : Z)
  (it : item) (imm : immediate) :
  (forall n, imm <> Int n) ->
  resolve_immediate labels position it imm = Err (symbolic_error labels imm).
Proof.
  intros Hsym.
  destruct imm as [n|label value|label|value|value];
    cbn [resolve_immediate symbolic_error];
    unfold mbind, res_bind, getitem.
  - now destruct (Hsym n).
  - destruct (labels !! label); reflexivity.
  - destruct (labels !! label); reflexivity.
  - reflexivity.
  - reflexivity.
Qed.

Lemma resolve_immediates_plain (labels : gmap string Z) (program : list item) :
  Forall plain_imm program ->
  forall (position : Z) (output : list item),
  for_each (resolve_immediates_item labels) (position, output) program =
  Ok (position + fields_sum program, (output ++ program)%list).
Proof.
  induction 1 as [|it program Hit _ IH]; intros position output.
  - cbn [for_each fields_sum]. now rewrite Z.add_0_r, app_nil_r.
  - rewrite for_each_cons.
    assert (Hstep : resolve_immediates_item labels (position, output) it
                    = Ok (position + len_item it, (output ++ [it])%list)).
    { unfold resolve_immediates_item, plain_imm in *.
      destruct (item_imm it) as [[n| | | |]|]; try contradiction; reflexivity. }
    rewrite Hstep, IH. cbn [fields_sum]. rewrite <- app_assoc.
    do 2 f_equal. lia.
Qed.

(** X17: [resolve_immediates] returns exactly on the programs whose
    immediates are all plain integers, and then returns the program
    unchanged, whatever the label table.  Otherwise it raises at the
    first item with a symbolic immediate: [KeyError] when that is a
    [Position] or [Offset] (not behind [Hi]/[Lo]) whose label is not in
    the table, [AttributeError] in every other case. *)
Theorem resolve_immediates_outcome (program : list item)
  (labels : gmap string Z) :
  (Forall plain_imm program -> resolve_immediates program labels = Ok program) /\
  (forall output, resolve_immediates program labels = Ok output ->
     output = program /\ Forall plain_imm program) /\
  (forall pre it imm post,
     program = (pre ++ it :: post)%list -> Forall plain_imm pre ->
     item_imm it = Some imm -> (forall n, imm <> Int n) ->
     resolve_immediates program labels = Err (symbolic_error labels imm)).
Proof.
  split; [|split].
  - intros Hplain. unfold resolve_immediates.
    now rewrite resolve_immediates_plain.
  - intros output Hout. unfold resolve_immediates, mbind, res_bind in Hout.
    destruct (for_each _ _ _) as [[position out]|e] eqn:Hloop;
      [|discriminate].
    inversion Hout; subst.
    apply resolve_immediates_loop in Hloop as [Hsnd Hplain].
    cbn in Hsnd. auto.
  - intros pre it imm post -> Hpre Himm Hsym.
    unfold resolve_immediates. rewrite for_each_app.
    rewrite resolve_immediates_plain by assumption.
    unfold mbind at 2, res_bind at 2. rewrite for_each_cons.
    unfold resolve_immediates_item at 1. rewrite Himm.
    rewrite resolve_immediate_symbolic by assumption.
    reflexivity.
Qed.

(** ** Passes 4 and 5 *)

Lemma resolve_relocations_item_outcome (output : list item) (it : item) :
  resolve_relocations_item output it =
  if wrapped_imm it then Err AttributeError else Ok (output ++ [it])%list.
Proof.
  unfold resolve_relocations_item, wrapped_imm.
  destruct (item_imm it) as [[n|label value|label|value|value]|];
    reflexivity.
Qed.

Lemma resolve_relocations_loop (program : list item) :
  forall output,
  for_each resolve_relocations_item output program =
  if existsb wrapped_imm program then Err AttributeError
  else Ok (output ++ program)%list.
Proof.
  induction program as [|it program IH]; intros output.
  - cbn [for_each existsb]. now rewrite app_nil_r.
  - rewrite for_each_cons, resolve_relocations_item_outcome.
    cbn [existsb]. destruct (wrapped_imm it); [reflexivity|].
    rewrite IH. cbn [orb]. now rewrite <- app_assoc.
Qed.

(** X18: [resolve_relocations] returns the program unchanged when no
    item has a [Hi] or [Lo] immediate, and raises [AttributeError] as
    soon as one has: it reads [item.imm.imm], and the wrappers have the
    one field [value].  [relocate_hi] and [relocate_lo] are never
    reached. *)
Theorem resolve_relocations_outcome (program : list item) :
  resolve_relocations program =
  if existsb wrapped_imm program then Err AttributeError else Ok program.
Proof.
  unfold resolve_relocations. now rewrite resolve_relocations_loop.
Qed.

Lemma assemble_loop (program : list item) :
  forall (output bs : list byte),
  for_each assemble_item output program = Ok bs ->
  exists ns,
    program = map Align ns /\ Forall (fun n => 0 <= n < 256) ns /\
    bs = (output ++ map byte_of_Z ns)%list.
Proof.
  induction program as [|it program IH]; intros output bs.
  - cbn [for_each]. intros H. inversion H. exists [].
    cbn [map]. rewrite app_nil_r. repeat split. constructor.
  - rewrite for_each_cons. unfold assemble_item at 1, mbind, res_bind.
    destruct it; cbn [bytes_of_item]; try discriminate.
    destruct (Z.leb_spec 0 alignment), (Z.ltb_spec alignment 256);
      cbn [andb]; try discriminate.
    intros Hrest. apply IH in Hrest as (ns & -> & Hns & ->).
    exists (alignment :: ns). cbn [map]. rewrite <- app_assoc.
    repeat split. constructor; [lia | assumption].
Qed.

Lemma assemble_aligns (ns : list Z) :
  Forall (fun n => 0 <= n < 256) ns ->
  forall output,
  for_each assemble_item output (map Align ns) =
  Ok (output ++ map byte_of_Z ns)%list.
Proof.
  induction 1 as [|n ns Hn _ IH]; intros output.
  - cbn [map for_each]. now rewrite app_nil_r.
  - cbn [map]. rewrite for_each_cons.
    unfold assemble_item at 1, mbind, res_bind. cbn [bytes_of_item].
    destruct (Z.leb_spec 0 n), (Z.ltb_spec n 256); try lia. cbn [andb].
    rewrite IH. now rewrite <- app_assoc.
Qed.

(** X19: [assemble] returns only on a program made of [Align] items
    with alignments in [range(256)], one byte per item: [bytes(item)] on
    a named tuple asks every field to be a small integer, and every
    other item starts with a string or bytes field.  A program that
    starts with an instruction, a blob, a pack or a label raises
    [TypeError]. *)
Theorem assemble_outcome (program : list item) :
  (forall bs,
     assemble program = Ok bs <->
     exists ns,
       program = map Align ns /\ Forall (fun n => 0 <= n < 256) ns /\
       bs = map byte_of_Z ns) /\
  (forall it rest,
     program = it :: rest -> is_Align it = false ->
     assemble program = Err TypeError).
Proof.
  split.
  - intros bs. unfold assemble. split.
    + intros H. apply assemble_loop in H as (ns & Hp & Hns & Hbs).
      exists ns. auto.
    + intros (ns & -> & Hns & ->). now rewrite assemble_aligns.
  - intros it rest -> Hit. unfold assemble. rewrite for_each_cons.
    unfold assemble_item, mbind, res_bind.
    destruct it; try discriminate; reflexivity.
Qed.

(** ** The passes in sequence, continued *)

Section SequenceProperties.

Variable py_int : string -> option Z.
Variable pyobj : Type.
Variable py_eval : string -> res pyobj.
Variable calcsize : string -> res Z.





End SequenceProperties.

(** ** The further properties at concrete inputs *)

Lemma r_type_layout_witness :
  (exists bs, SUB int_of_str (RegStr "x1") (RegStr "x2") (RegStr "x3") = Ok bs /\
              bits_of (le_word bs) 25 7 = 0x20 /\ bits_of (le_word bs) 20 5 = 3) /\
  r_type int_of_str (RegStr "x1") (RegStr "x2") (RegStr "x3") 0x33 0 0x80 =
    Err StructError.
Proof.
  destruct (r_type_layout int_of_str (RegStr "x1") (RegStr "x2") (RegStr "x3")
              1 2 3 0x33 0 0x20) as [_ Hok];
    [vm_compute; reflexivity | vm_compute; reflexivity
    | vm_compute; reflexivity | lia | lia |].
  destruct (r_type_layout int_of_str (RegStr "x1") (RegStr "x2") (RegStr "x3")
              1 2 3 0x33 0 0x80) as [Herr _];
    [vm_compute; reflexivity | vm_compute; reflexivity
    | vm_compute; reflexivity | lia | lia |].
  split.
  - destruct Hok as (bs & Hbs & _ & _ & _ & _ & _ & Hc & Hf7); [lia|].
    exists bs. split; [exact Hbs|]. split; [exact Hf7 | exact Hc].
  - apply Herr. lia.
Defined.

Lemma i_type_roundtrip_witness :
  exists bs, ADDI int_of_str (RegStr "x1") (RegStr "zero") (-1) = Ok bs /\
             decode_i_imm (le_word bs) = -1.
Proof.
  apply (i_type_roundtrip int_of_str (RegStr "x1") (RegStr "zero") 1 0 (-1) 0x13 0);
    [vm_compute; reflexivity | vm_compute; reflexivity | lia | lia | lia].
Defined.

Lemma s_type_roundtrip_witness :
  (exists bs, SW int_of_str (RegStr "sp") (RegStr "ra") (-4) = Ok bs /\
              decode_s_imm (le_word bs) = -4) /\
  SW int_of_str (RegStr "sp") (RegStr "ra") 2048 = Err (ValueError Imm12Range).
Proof.
  destruct (s_type_roundtrip int_of_str (RegStr "sp") (RegStr "ra")
              2 1 (-4) 0x23 2) as [_ Hok];
    [vm_compute; reflexivity | vm_compute; reflexivity | lia | lia |].
  destruct (s_type_roundtrip int_of_str (RegStr "sp") (RegStr "ra")
              2 1 2048 0x23 2) as [Herr _];
    [vm_compute; reflexivity | vm_compute; reflexivity | lia | lia |].
  split.
  - destruct Hok as (bs & Hbs & _ & _ & _ & _ & _ & Himm); [lia|].
    exists bs. split; [exact Hbs | exact Himm].
  - apply Herr. lia.
Defined.

Lemma b_type_roundtrip_witness :
  exists bs, BNE int_of_str (RegStr "t0") (RegStr "t1") (-4096) = Ok bs /\
             decode_b_imm (le_word bs) = -4096.
Proof.
  destruct (b_type_roundtrip int_of_str (RegStr "t0") (RegStr "t1")
              5 6 (-4096) 0x63 1) as (bs & Hbs & _ & _ & _ & _ & Himm);
    [vm_compute; reflexivity | vm_compute; reflexivity | lia | lia | lia
    | reflexivity |].
  exists bs. split; [exact Hbs | exact Himm].
Defined.

Lemma u_type_roundtrip_witness :
  (exists bs, LUI int_of_str (RegStr "a0") (-1) = Ok bs /\
              decode_u_imm (le_word bs) = -1) /\
  LUI int_of_str (RegStr "a0") 0x80000 = Err (ValueError Imm20Range).
Proof.
  destruct (u_type_roundtrip int_of_str (RegStr "a0") 10 (-1) 0x37) as [_ Hok];
    [vm_compute; reflexivity | lia |].
  destruct (u_type_roundtrip int_of_str (RegStr "a0") 10 0x80000 0x37)
    as [Herr _]; [vm_compute; reflexivity | lia |].
  split.
  - destruct Hok as (bs & Hbs & _ & _ & _ & Himm); [lia|].
    exists bs. split; [exact Hbs | exact Himm].
  - apply Herr. lia.
Defined.

Lemma j_type_roundtrip_witness :
  (exists bs, JAL int_of_str (RegStr "ra") (-1048576) = Ok bs /\
              decode_j_imm (le_word bs) = -1048576) /\
  JAL int_of_str (RegStr "ra") 1048576 = Err (ValueError Imm21Range) /\
  JAL int_of_str (RegStr "ra") 5 = Err (ValueError Imm21Parity).
Proof.
  destruct (j_type_roundtrip int_of_str (RegStr "ra") 1 (-1048576) 0x6f)
    as (_ & _ & Hok); [vm_compute; reflexivity | lia |].
  destruct (j_type_roundtrip int_of_str (RegStr "ra") 1 1048576 0x6f)
    as (Hrange & _); [vm_compute; reflexivity | lia |].
  destruct (j_type_roundtrip int_of_str (RegStr "ra") 1 5 0x6f)
    as (_ & Hpar & _); [vm_compute; reflexivity | lia |].
  split; [|split].
  - destruct Hok as (bs & Hbs & _ & _ & _ & Himm); [lia | reflexivity |].
    exists bs. split; [exact Hbs | exact Himm].
  - apply Hrange. lia.
  - apply Hpar; [lia | reflexivity].
Defined.

Lemma encoders_return_four_bytes_witness :
  length [xb3; x00; x31; x00] = 4%nat.
Proof.
  destruct (encoders_return_four_bytes int_of_str [xb3; x00; x31; x00])
    as (Hr & _).
  apply (Hr (RegStr "x1") (RegStr "x2") (RegStr "x3") 0x33 0 0).
  vm_compute. reflexivity.
Defined.


Lemma relocate_exact_witness :
  exists hi lo,
    relocate_hi (-1) = Ok hi /\ relocate_lo (-1) = Ok lo /\
    hi = 0 /\ lo = -1 /\ hi * 2 ^ 12 + lo = -1.
Proof.
  destruct (relocate_exact (-1)) as (hi & lo & Hhi & Hlo & Hexact & Hsmall).
  exists hi, lo. split; [exact Hhi|]. split; [exact Hlo|].
  destruct Hsmall as [H0 Hv]; [lia|].
  split; [exact H0|]. split; [exact Hv|]. apply Hexact. lia.
Defined.

Lemma lex_assembly_tokens_witness :
  "t0" <> "" /\ string_forall token_char "t0" = true.
Proof.
  apply (lex_assembly_tokens "lw t0, 4(sp) # load" ["lw"; "t0"; "4"; "sp"] "t0").
  - vm_compute. left. reflexivity.
  - right. left. reflexivity.
Defined.

Lemma lex_assembly_comment_witness :
  lex_assembly ("add x1, x2, x3 " +:+
                String "#" (" sum" +:+ String (chr 10) "sub x1, x2, x3")) =
  lex_assembly ("add x1, x2, x3 " +:+ String (chr 10) "sub x1, x2, x3").
Proof.
  apply (lex_assembly_comment "add x1, x2, x3 " " sum"
           (String (chr 10) "sub x1, x2, x3")); reflexivity.
Defined.



Lemma resolve_aligns_output_witness :
  aligns_resolved [Blob [x01]; Align 4] [Blob [x01]; Blob [x00; x00; x00]] /\
  Forall (fun it => is_Align it = false) [Blob [x01]; Blob [x00; x00; x00]].
Proof.
  apply (resolve_aligns_output (fun _ => Err StructError)).
  vm_compute. reflexivity.
Defined.


Lemma resolve_labels_counts_fields_witness :
  exists output labels,
    resolve_labels
      [UTypeInstruction "lui" (RegStr "a0") (Int 1); Blob [x00; x00; x00; x00; x00];
       Label "a"] = Ok (output, labels) /\
    labels !! "a" = Some 4.
Proof.
  apply (resolve_labels_counts_fields
           [UTypeInstruction "lui" (RegStr "a0") (Int 1);
            Blob [x00; x00; x00; x00; x00]] [] "a").
  intros [].
Defined.

Lemma resolve_immediates_outcome_witness :
  resolve_immediates [ITypeInstruction "addi" (RegStr "a0") (RegStr "a0") (Int 1)]
    ∅ = Ok [ITypeInstruction "addi" (RegStr "a0") (RegStr "a0") (Int 1)] /\
  resolve_immediates
    [ITypeInstruction "addi" (RegStr "a0") (RegStr "a0") (Int 1);
     JTypeInstruction "jal" (RegStr "ra") (Offset "f")] ∅ = Err (KeyError "f").
Proof.
  split.
  - apply (resolve_immediates_outcome _ ∅).
    constructor; [exact I | constructor].
  - destruct (resolve_immediates_outcome
                [ITypeInstruction "addi" (RegStr "a0") (RegStr "a0") (Int 1);
                 JTypeInstruction "jal" (RegStr "ra") (Offset "f")] ∅)
      as (_ & _ & H).
    apply (H [ITypeInstruction "addi" (RegStr "a0") (RegStr "a0") (Int 1)]
             (JTypeInstruction "jal" (RegStr "ra") (Offset "f"))
             (Offset "f") []).
    + reflexivity.
    + constructor; [exact I | constructor].
    + reflexivity.
    + intros n. discriminate.
Defined.

Lemma assemble_outcome_witness :
  assemble [Align 7; Align 255] = Ok [x07; xff] /\
  assemble [Blob [x68; x69]] = Err TypeError.
Proof.
  split.
  - destruct (assemble_outcome [Align 7; Align 255]) as [H _].
    apply H. exists [7; 255]. split; [reflexivity|]. split; [|reflexivity].
    repeat constructor; lia.
  - destruct (assemble_outcome [Blob [x68; x69]]) as [_ H].
    apply (H (Blob [x68; x69]) []); reflexivity.
Defined.

